(** * MoodBeats inference server: feature extraction and model ensemble

    Shallow embedding of [assets/ml/server/flask_server.py].

    Numbers.  Python ints and float64 values are idealised as exact
    rationals ([Q]); a statistic that numpy/scipy may return as [nan] or
    [inf] is an [fval], which keeps that case apart from the finite ones.

    Libraries.  The transcendental functions behind [np.std] and
    [scipy.stats.entropy], and the functions [scipy.stats.skew] and
    [scipy.stats.kurtosis], belong to numpy/scipy; they are taken as a
    [numlib] record.  The fitted scalers and classifiers are pickled
    artifacts; they are taken as records of functions.

    Exceptions.  Code that may raise runs in the error monad [res].

    Requests.  The JSON field [heart_rate] is absent, a number or an
    array of numbers; [accelerometer] is absent or an array of numbers
    and arrays of numbers.  The draws of [np.random.normal] are given by
    a function from the draw's position to a standard normal value. *)

From Stdlib Require Import QArith ZArith List Lia Lqa Qround Qminmax Qabs.
From Stdlib Require Import Permutation Sorted DecimalString Ascii.
From stdpp Require Import base list strings gmap.

Local Open Scope Q_scope.

(** ** Exceptions and the error monad *)

Inductive exn : Type :=
| EmptyReduction                 (* ValueError: zero-size array to reduction operation *)
| InhomogeneousShape             (* ValueError: inhomogeneous shape in np.array *)
| ReshapeError (size : nat)      (* ValueError: cannot reshape array of size n into shape (3) *)
| BroadcastError (n1 n2 : nat)   (* ValueError: operands could not be broadcast together *)
| EmptyArgmax                    (* ValueError: attempt to get argmax of an empty sequence *)
| IndexError (i : Z) (n : nat)   (* IndexError: index i out of range for size n *)
| TooManyIndices                 (* IndexError: too many indices for array *)
| ArtifactError (msg : string)   (* anything raised inside a scaler or a classifier *)
| LoadError (file : string).     (* anything raised by joblib.load *)

Inductive res (A : Type) : Type :=
| Ret (a : A)
| Raise (e : exn).
Arguments Ret {A} a.
Arguments Raise {A} e.

#[global] Instance res_bind : MBind res := fun A B k m =>
  match m with
  | Ret a => k a
  | Raise e => Raise e
  end.

#[global] Instance res_ret : MRet res := fun A a => Ret a.

Fixpoint mapM {A B} (f : A -> res B) (l : list A) : res (list B) :=
  match l with
  | [] => Ret []
  | a :: l' => b ← f a; bs ← mapM f l'; Ret (b :: bs)
  end.

(** ** Values and comparisons *)

(** A float64 result: a finite number, or [nan]/[inf]. *)
Inductive fval : Type :=
| Fin (q : Q)
| NonFinite.

Definition Qltb (x y : Q) : bool := negb (Qle_bool y x).

(** ** The numeric library (numpy / scipy) *)

Record numlib : Type := {
  lib_sqrt : Q -> Q;                 (* np.sqrt, inside np.std *)
  lib_log : Q -> Q;                  (* natural logarithm, inside scipy's entr *)
  lib_skew : list Q -> fval;         (* scipy.stats.skew *)
  lib_kurtosis : list Q -> fval      (* scipy.stats.kurtosis *)
}.

Definition np_sum (xs : list Q) : Q := fold_left Qplus xs 0.

Definition len (xs : list Q) : Q := inject_Z (Z.of_nat (length xs)).

Definition np_mean (xs : list Q) : Q := np_sum xs / len xs.

Definition np_min (xs : list Q) : res Q :=
  match xs with
  | [] => Raise EmptyReduction
  | x :: xs' => Ret (fold_left Qmin xs' x)
  end.

Definition np_max (xs : list Q) : res Q :=
  match xs with
  | [] => Raise EmptyReduction
  | x :: xs' => Ret (fold_left Qmax xs' x)
  end.

(** [np.sum(a**2) / len(a)] *)
Definition energy (xs : list Q) : Q :=
  np_sum (map (fun x => x ^ 2) xs) / len xs.

(** [np.histogram(a, bins=10, density=True)[0]], for a non-empty [a]:
    the range is [(min, max)], widened by 0.5 on each side when it is a
    point; the edges are [linspace(first, last, 11)]; the last bin is
    closed on the right. *)
Definition n_bins : nat := 10.

Definition hist_range (xs : list Q) : Q * Q :=
  match xs with
  | [] => (0, 1)
  | x :: xs' =>
      let lo := fold_left Qmin xs' x in
      let hi := fold_left Qmax xs' x in
      if Qeq_bool lo hi then (lo - 0.5, hi + 0.5) else (lo, hi)
  end.

Definition of_nat (k : nat) : Q := inject_Z (Z.of_nat k).

Definition bin_edges (r : Q * Q) : list Q :=
  map (fun k => fst r + of_nat k * ((snd r - fst r) / of_nat n_bins))
      (seq 0 (S n_bins)).

(** Bin of a sample: [floor((x - first) / (last - first) * bins)], the
    sample equal to the last edge going to the last bin. *)
Definition bin_index (r : Q * Q) (x : Q) : Z :=
  let i := Qfloor ((x - fst r) / (snd r - fst r) * of_nat n_bins) in
  if (i =? Z.of_nat n_bins)%Z then (i - 1)%Z else i.

Definition bin_counts (xs : list Q) : list nat :=
  let r := hist_range xs in
  map (fun b => length (filter (fun x => (bin_index r x =? Z.of_nat b)%Z) xs))
      (seq 0 n_bins).

(** [np.diff(bin_edges)] *)
Fixpoint np_diff (es : list Q) : list Q :=
  match es with
  | e0 :: (e1 :: _) as es' => (e1 - e0) :: np_diff es'
  | _ => []
  end.

(** [density=True]: [n / db / n.sum()] *)
Definition histogram_density (xs : list Q) : list Q :=
  let n := bin_counts xs in
  let db := np_diff (bin_edges (hist_range xs)) in
  let total := of_nat (fold_left Nat.add n 0%nat) in
  map (fun p => of_nat (fst p) / snd p / total) (combine n db).

Section Features.

Variable L : numlib.

(** [np.std(a)]: [sqrt(mean(abs(a - a.mean())**2))] *)
Definition np_std (xs : list Q) : Q :=
  let m := np_mean xs in
  lib_sqrt L (np_mean (map (fun x => (x - m) ^ 2) xs)).

(** [scipy.special.entr]: [-x*log(x)] for [x > 0], [0] at [0]; a
    negative argument gives [-inf], which [entropy] reports. *)
Definition entr (x : Q) : Q :=
  if Qltb 0 x then - x * lib_log L x else 0.

(** [scipy.stats.entropy(pk)]: normalise [pk] to sum 1, then sum
    [entr].  A zero normaliser or a negative entry gives [nan]/[-inf]. *)
Definition entropy (pk : list Q) : fval :=
  let s := np_sum pk in
  if Qeq_bool s 0 then NonFinite
  else
    let p := map (fun x => x / s) pk in
    if existsb (fun x => Qltb x 0) p then NonFinite
    else Fin (np_sum (map entr p)).

(** The smoothing constant of lines 55 and 80. *)
Definition smoothing : Q := 1e-6.

(** The eight statistics of lines 47-56 (heart rate) and 72-81 (one
    accelerometer axis): the two list displays are the same expression
    over [hr_data] and over [axis_data].  The elements are evaluated
    in order; [np.mean] and [np.std] of an empty array give [nan] with
    a warning, and [np.min] then raises. *)
Definition stat_features (data : list Q) : res (list fval) :=
  let mean := np_mean data in
  let std := np_std data in
  mn ← np_min data;
  mx ← np_max data;
  Ret [ Fin mean;
        Fin std;
        Fin mn;
        Fin mx;
        Fin (energy data);
        (if (2 <? length data)%nat then lib_skew L data else Fin 0);
        (if (3 <? length data)%nat then lib_kurtosis L data else Fin 0);
        entropy (map (fun d => d + smoothing) (histogram_density data)) ].

End Features.

(** *** Accelerometer input *)

(** One element of the JSON array [accelerometer]: a number, or an
    array of numbers. *)
Inductive acc_item : Type :=
| AccNum (x : Q)
| AccRow (row : list Q).

(** A numpy array of dimension 1, or of dimension 2 with its number
    of columns. *)
Inductive ndarray : Type :=
| Arr1 (xs : list Q)
| Arr2 (ncols : nat) (rows : list (list Q)).

Fixpoint all_nums (items : list acc_item) : option (list Q) :=
  match items with
  | [] => Some []
  | AccNum x :: items' => cons x <$> all_nums items'
  | AccRow _ :: _ => None
  end.

Fixpoint all_rows (items : list acc_item) : option (list (list Q)) :=
  match items with
  | [] => Some []
  | AccRow r :: items' => cons r <$> all_rows items'
  | AccNum _ :: _ => None
  end.

(** [np.array(acc_data)] (numpy 1.24 and later: a ragged or mixed
    nesting raises). *)
Definition np_array (items : list acc_item) : res ndarray :=
  match all_nums items with
  | Some xs => Ret (Arr1 xs)
  | None =>
      match all_rows items with
      | Some (r :: rows) =>
          if forallb (fun r' => (length r' =? length r)%nat) rows
          then Ret (Arr2 (length r) (r :: rows))
          else Raise InhomogeneousShape
      | _ => Raise InhomogeneousShape
      end
  end.

Definition ravel (a : ndarray) : list Q :=
  match a with
  | Arr1 xs => xs
  | Arr2 _ rows => concat rows
  end.

Fixpoint chunk3 (xs : list Q) : list (list Q) :=
  match xs with
  | a :: b :: c :: rest => [a; b; c] :: chunk3 rest
  | _ => []
  end.

(** [a.reshape(-1, 3)] *)
Definition reshape3 (a : ndarray) : res ndarray :=
  let flat := ravel a in
  if (length flat mod 3 =? 0)%nat then Ret (Arr2 3 (chunk3 flat))
  else Raise (ReshapeError (length flat)).

(** [a[:, axis]] *)
Definition column (a : ndarray) (axis : nat) : res (list Q) :=
  match a with
  | Arr1 _ => Raise TooManyIndices
  | Arr2 ncols rows =>
      if (axis <? ncols)%nat then Ret (map (fun r => nth axis r 0) rows)
      else Raise (IndexError (Z.of_nat axis) ncols)
  end.

(** [isinstance(acc_data[0], list) and len(acc_data[0]) == 3] *)
Definition is_triple (first : acc_item) : bool :=
  match first with
  | AccRow r => (length r =? 3)%nat
  | AccNum _ => false
  end.

Definition zero_block : list fval := repeat (Fin 0) (8 * 3).

(** Lines 43-89.  The result is the single row of the [1 x 32] matrix. *)
Definition extract_features (L : numlib) (hr_data : list Q)
  (acc_data : option (list acc_item)) : res (list fval) :=
  hr_features ← stat_features L hr_data;
  acc_features ←
    match acc_data with
    | Some ((first :: _) as items) =>
        arr ← (if is_triple first then np_array items
               else a ← np_array items; reshape3 a);
        blocks ← mapM (fun axis => axis_data ← column arr axis;
                                   stat_features L axis_data)
                      (seq 0 3);
        Ret (concat blocks)
    | _ => Ret zero_block
    end;
  Ret (hr_features ++ acc_features).

(** ** The ensemble (lines 126-148) *)

Definition MOOD_NAMES : list string := ["Happy"; "Angry"; "Sad"; "Relaxed"]%string.

(** Python indexing of a list or of a 1-D array: a negative index counts
    from the end; out of range raises [IndexError]. *)
Definition py_index {A} (l : list A) (i : Z) : res A :=
  let n := Z.of_nat (length l) in
  let j := if (i <? 0)%Z then (i + n)%Z else i in
  if ((0 <=? j) && (j <? n))%Z then
    match l !! Z.to_nat j with
    | Some a => Ret a
    | None => Raise (IndexError i (length l))
    end
  else Raise (IndexError i (length l)).

(** [w * a] for a Python float [w] and a 1-D array [a]. *)
Definition np_scale (w : Q) (a : list Q) : list Q := map (Qmult w) a.

(** [a + b] for 1-D arrays, with numpy's broadcasting of a length-1
    operand. *)
Definition np_add (a b : list Q) : res (list Q) :=
  if (length a =? length b)%nat then Ret (zip_with Qplus a b)
  else
    match a, b with
    | [x], _ => Ret (map (Qplus x) b)
    | _, [y] => Ret (map (fun x => x + y) a)
    | _, _ => Raise (BroadcastError (length a) (length b))
    end.

(** [np.argmax]: one pass keeping the first index of the largest value
    seen; a later element replaces it only when strictly larger. *)
Fixpoint argmax_from (best : nat) (best_val : Q) (i : nat) (xs : list Q) : nat :=
  match xs with
  | [] => best
  | x :: xs' =>
      if Qltb best_val x then argmax_from i x (S i) xs'
      else argmax_from best best_val (S i) xs'
  end.

Definition np_argmax (a : list Q) : res nat :=
  match a with
  | [] => Raise EmptyArgmax
  | x :: xs => Ret (argmax_from 0 x 1 xs)
  end.

(** [np.argsort]: the indices in ascending order of their values.  For
    an array this short numpy's default sort is an insertion sort, which
    keeps equal values in index order. *)
Fixpoint insert_sorted (p : nat * Q) (l : list (nat * Q)) : list (nat * Q) :=
  match l with
  | [] => [p]
  | h :: t =>
      if Qle_bool (snd p) (snd h) then p :: h :: t
      else h :: insert_sorted p t
  end.

Definition sort_pairs (l : list (nat * Q)) : list (nat * Q) :=
  foldr insert_sorted [] l.

Definition np_argsort (a : list Q) : list nat :=
  map fst (sort_pairs (combine (seq 0 (length a)) a)).

Record decision : Type := {
  primary_mood : string;
  secondary_mood : string;
  model1_prediction : string;
  model2_prediction : string;
  confidence : list (string * Q)
}.

Definition ensemble (pred1 pred2 : Z) (proba1 proba2 : list Q) : res decision :=
  combined_proba ← np_add (np_scale 0.6 proba1) (np_scale 0.4 proba2);
  final_mood_idx ← np_argmax combined_proba;
  final_mood ← py_index MOOD_NAMES (Z.of_nat final_mood_idx);
  secondary_idx ← py_index (np_argsort combined_proba) (-2);
  secondary_mood ← py_index MOOD_NAMES (Z.of_nat secondary_idx);
  confidence ← mapM (fun i => name ← py_index MOOD_NAMES (Z.of_nat i);
                              c ← py_index combined_proba (Z.of_nat i);
                              Ret (name, c))
                    (seq 0 (length MOOD_NAMES));
  m1 ← py_index MOOD_NAMES pred1;
  m2 ← py_index MOOD_NAMES pred2;
  Ret {| primary_mood := final_mood;
         secondary_mood := secondary_mood;
         model1_prediction := m1;
         model2_prediction := m2;
         confidence := confidence |}.

(** ** Model artifacts and their loading (lines 20-29) *)

Record scaler : Type := {
  transform : list fval -> res (list fval)
}.

Record classifier : Type := {
  predict : list fval -> res Z;               (* [predict(X)[0]] *)
  predict_proba : list fval -> res (list Q)   (* [predict_proba(X)[0]] *)
}.

Record models : Type := {
  model1 : classifier;
  scaler1 : scaler;
  model2 : classifier;
  scaler2 : scaler
}.

(** The four pickle files of the models directory; [None] is a file
    that [joblib.load] cannot load. *)
Record model_files : Type := {
  xgb_emotion_model_pkl : option classifier;
  xgb_scaler_pkl : option scaler;
  xgb_emotion_model2_pkl : option classifier;
  xgb_scaler2_pkl : option scaler
}.

Definition joblib_load {A} (name : string) (file : option A) : res A :=
  match file with
  | Some a => Ret a
  | None => Raise (LoadError name)
  end.

Definition load_models (fs : model_files) : res models :=
  m1 ← joblib_load "xgb_emotion_model.pkl" (xgb_emotion_model_pkl fs);
  s1 ← joblib_load "xgb_scaler.pkl" (xgb_scaler_pkl fs);
  m2 ← joblib_load "xgb_emotion_model2.pkl" (xgb_emotion_model2_pkl fs);
  s2 ← joblib_load "xgb_scaler2.pkl" (xgb_scaler2_pkl fs);
  Ret {| model1 := m1; scaler1 := s1; model2 := m2; scaler2 := s2 |}.

(** ** The endpoint [/api/predict-mood] (lines 91-154) *)

(** The JSON field [heart_rate]: absent or null, a number, or an array
    of numbers. *)
Inductive hr_json : Type :=
| HrAbsent
| HrNumber (x : Q)
| HrList (xs : list Q).

Record request : Type := {
  heart_rate : hr_json;
  accelerometer : option (list acc_item)
}.

(** Python truth value of the field. *)
Definition truthy (h : hr_json) : bool :=
  match h with
  | HrAbsent => false
  | HrNumber x => negb (Qeq_bool x 0)
  | HrList xs => negb (Nat.eqb (length xs) 0)
  end.

Inductive response : Type :=
| Ok200 (d : decision)
| Error400 (msg : string)
| Error500 (e : exn).

(** [np.clip(a, lo, hi)] *)
Definition np_clip (lo hi : Q) (a : list Q) : list Q :=
  map (fun x => Qmin (Qmax x lo) hi) a.

(** [np.random.normal(loc, scale, size)]: [loc + scale * z] over [size]
    standard normal draws [z], given by the generator state [normal]. *)
Definition random_normal (normal : nat -> Q) (loc scale : Q) (size : nat) : list Q :=
  map (fun i => loc + scale * normal i) (seq 0 size).

Section Endpoint.

Variable L : numlib.
Variable ms : models.
Variable normal : nat -> Q.

Definition hr_sequence (heart_rate : hr_json) : list Q :=
  match heart_rate with
  | HrNumber x => np_clip (x - 5) (x + 5) (random_normal normal x 2 30)
  | HrList xs => xs
  | HrAbsent => []
  end.

Definition infer (req : request) : res decision :=
  features ← extract_features L (hr_sequence (heart_rate req)) (accelerometer req);
  scaled_features1 ← transform (scaler1 ms) features;
  scaled_features2 ← transform (scaler2 ms) features;
  pred1 ← predict (model1 ms) scaled_features1;
  pred2 ← predict (model2 ms) scaled_features2;
  proba1 ← predict_proba (model1 ms) scaled_features1;
  proba2 ← predict_proba (model2 ms) scaled_features2;
  ensemble pred1 pred2 proba1 proba2.

Definition predict_mood (req : request) : response :=
  if negb (truthy (heart_rate req)) then Error400 "Heart rate data is required"
  else
    match infer req with
    | Ret d => Ok200 d
    | Raise e => Error500 e
    end.

End Endpoint.

(** ** The endpoint [/api/recommend-songs] (lines 156-191) *)

Record song : Type := {
  song_index : Z;
  title : string;
  artists : string
}.

Definition song_ranges : gmap nat (Z * Z) :=
  <[0%nat := (1, 20)%Z]> (<[1%nat := (61, 80)%Z]> (<[2%nat := (21, 40)%Z]>
  (<[3%nat := (41, 60)%Z]> ∅))).

(** [MOOD_NAMES.index(mood)] *)
Fixpoint list_index (x : string) (l : list string) : option nat :=
  match l with
  | [] => None
  | y :: l' => if String.eqb x y then Some 0%nat else S <$> list_index x l'
  end.

(** [series.between(lo, hi)], inclusive on both sides. *)
Definition between (lo hi v : Z) : bool := ((lo <=? v) && (v <=? hi))%Z.

Inductive rec_response : Type :=
| Recommendations (mood : string) (recommendations : list song)
| InvalidMood                 (* status 400 *)
| NotInList                   (* ValueError of [list.index], status 500 *)
| KeyError (k : nat).         (* KeyError of [song_ranges], status 500 *)

(** Lines 166 and 176 together: from a mood name to its catalog range. *)
Definition mood_range (mood : string) : option (Z * Z) :=
  mood_index ← list_index mood MOOD_NAMES;
  song_ranges !! mood_index.

Definition recommend_songs (songs_df : list song) (mood : option string) : rec_response :=
  match mood with
  | None => InvalidMood
  | Some m =>
      if String.eqb m "" || negb (existsb (String.eqb m) MOOD_NAMES) then InvalidMood
      else
        match list_index m MOOD_NAMES with
        | None => NotInList
        | Some mood_index =>
            match song_ranges !! mood_index with
            | Some (start_idx, end_idx) =>
                Recommendations m
                  (filter (fun s => between start_idx end_idx (song_index s)) songs_df)
            | None => KeyError mood_index
            end
        end
  end.

(** ** A reference numeric library

    Rational approximations of the numpy/scipy functions, to run the
    model on concrete inputs. *)

(** Square root to six decimals: [sqrt(p/d) = sqrt(p*d*10^12) / (d*10^6)]. *)
Definition ref_sqrt (q : Q) : Q :=
  Qred (Z.sqrt (Qnum q * Zpos (Qden q) * 10 ^ 12) # (Qden q * 10 ^ 6)).

(** Natural logarithm by the series [2 * sum y^(2k+1)/(2k+1)], with
    [y = (x-1)/(x+1)], cut after [terms] terms. *)
Fixpoint atanh_series (y ypow : Q) (k terms : nat) : Q :=
  match terms with
  | O => 0
  | S terms' =>
      Qred (ypow / of_nat (2 * k + 1)
            + atanh_series y (Qred (ypow * y * y)) (S k) terms')
  end.

Definition ref_log (x : Q) : Q :=
  let y := Qred ((x - 1) / (x + 1)) in
  Qred (2 * atanh_series y y 0 12).

(** Central moment of order [k]. *)
Definition moment (k : positive) (xs : list Q) : Q :=
  let m := np_mean xs in
  np_mean (map (fun x => Qpower_positive (x - m) k) xs).

(** Biased skewness [m3 / m2^1.5] and excess kurtosis [m4 / m2^2 - 3];
    [nan] on a constant sample. *)
Definition ref_skew (xs : list Q) : fval :=
  let m2 := moment 2 xs in
  if Qeq_bool m2 0 then NonFinite
  else Fin (Qred (moment 3 xs / (m2 * ref_sqrt m2))).

Definition ref_kurtosis (xs : list Q) : fval :=
  let m2 := moment 2 xs in
  if Qeq_bool m2 0 then NonFinite
  else Fin (Qred (moment 4 xs / (m2 * m2) - 3)).

Definition reflib : numlib :=
  {| lib_sqrt := ref_sqrt; lib_log := ref_log;
     lib_skew := ref_skew; lib_kurtosis := ref_kurtosis |}.

(** ** Inputs and stub artifacts used in the statements *)

(** The two JSON renderings of a sequence of accelerometer triples:
    flat, row-major ([[x0, y0, z0, x1, ...]]), and nested
    ([[[x0, y0, z0], [x1, ...], ...]]). *)
Definition acc_flat (ts : list (Q * Q * Q)) : list acc_item :=
  flat_map (fun t => [AccNum (fst (fst t)); AccNum (snd (fst t)); AccNum (snd t)]) ts.

Definition acc_nested (ts : list (Q * Q * Q)) : list acc_item :=
  map (fun t => AccRow [fst (fst t); snd (fst t); snd t]) ts.

Definition identity_scaler : scaler := {| transform := fun f => Ret f |}.

(** A classifier that answers the same class and the same probability
    vector on every input. *)
Definition stub_classifier (pred : Z) (proba : list Q) : classifier :=
  {| predict := fun _ => Ret pred; predict_proba := fun _ => Ret proba |}.

Definition stub_models (c1 c2 : classifier) : models :=
  {| model1 := c1; scaler1 := identity_scaler;
     model2 := c2; scaler2 := identity_scaler |}.

Definition stub_files (c1 c2 : classifier) : model_files :=
  {| xgb_emotion_model_pkl := Some c1; xgb_scaler_pkl := Some identity_scaler;
     xgb_emotion_model2_pkl := Some c2; xgb_scaler2_pkl := Some identity_scaler |}.

(** What it means for [order] to be an ascending argsort of [a]: a
    permutation of the indices along which the values never decrease. *)
Definition is_argsort (a : list Q) (order : list nat) : Prop :=
  Permutation order (seq 0 (length a)) /\
  forall i j, (i <= j < length order)%nat ->
              nth (nth i order 0%nat) a 0 <= nth (nth j order 0%nat) a 0.

(** The response of status 400: the request is rejected as invalid
    input, before any inference. *)
Definition is_input_error (r : response) : Prop :=
  exists msg, r = Error400 msg.

(** One accelerometer sample as a row of the [n x 3] array. *)
Definition triple_row (t : Q * Q * Q) : list Q := [fst (fst t); snd (fst t); snd t].

(** The blend of line 127 on two vectors of the same length. *)
Definition blend (proba1 proba2 : list Q) : list Q :=
  zip_with Qplus (np_scale 0.6 proba1) (np_scale 0.4 proba2).

(** The order along which [np.argsort] sorts index-value pairs. *)
Definition by_value (p q : nat * Q) : Prop := snd p <= snd q.

(** The stub artifacts and the vectors of the end-to-end scenario. *)
Definition happy_models : models :=
  stub_models (stub_classifier 0 [0.7; 0.1; 0.1; 0.1])
              (stub_classifier 0 [0.5; 0.2; 0.2; 0.1]).

Definition stub_combined : list Q :=
  blend [0.7; 0.1; 0.1; 0.1] [0.5; 0.2; 0.2; 0.1].

(** A classifier fitted on five classes, and one fitted on four. *)
Definition five_class : classifier := stub_classifier 4 [0.1; 0.1; 0.1; 0.1; 0.6].

Definition four_class : classifier := stub_classifier 0 [0.5; 0.2; 0.2; 0.1].

(** Two requests: heart rate only, and heart rate with a flat
    accelerometer array of length 7. *)
Definition plain_request : request :=
  {| heart_rate := HrList [70; 72; 68; 75]; accelerometer := None |}.

Definition seven_flat : request :=
  {| heart_rate := HrList [70; 72; 68; 75];
     accelerometer := Some (map AccNum [1; 2; 3; 4; 5; 6; 7]) |}.

(** ** The song catalog (lines 31-37) and [/api/song-details] (lines 193-228) *)

(** [pd.read_csv], or the empty frame when reading fails. *)
Definition load_songs (csv : option (list song)) : list song :=
  match csv with
  | Some rows => rows
  | None => []
  end.

(** [''.join(c if c.isalnum() else '_' for c in s)]; [isalnum] is
    Python's [str.isalnum] on one character, a string being read as a
    sequence of one-byte characters. *)
Fixpoint sanitize (isalnum : ascii -> bool) (s : string) : string :=
  match s with
  | EmptyString => EmptyString
  | String c s' =>
      String (if isalnum c then c else "_"%char) (sanitize isalnum s')
  end.

(** [s.split(',')[0]] *)
Fixpoint before_comma (s : string) : string :=
  match s with
  | EmptyString => EmptyString
  | String c s' =>
      if Ascii.eqb c ","%char then EmptyString else String c (before_comma s')
  end.

(** [str(n)] for the non-negative integer of the route converter. *)
Definition py_str (n : nat) : string := NilZero.string_of_uint (Nat.to_uint n).

(** [s.zfill(width)] for a string without sign. *)
Fixpoint zeros (n : nat) : string :=
  match n with
  | O => EmptyString
  | S n' => String "0"%char (zeros n')
  end.

Definition zfill (width : nat) (s : string) : string :=
  String.append (zeros (width - String.length s)) s.

Fixpoint ends_with_slash (s : string) : bool :=
  match s with
  | EmptyString => false
  | String c EmptyString => Ascii.eqb c "/"%char
  | String _ s' => ends_with_slash s'
  end.

Definition starts_with_slash (s : string) : bool :=
  match s with
  | String c _ => Ascii.eqb c "/"%char
  | EmptyString => false
  end.

(** One step of [os.path.join] (posixpath). *)
Definition path_join (path b : string) : string :=
  if starts_with_slash b then b
  else if String.eqb path "" || ends_with_slash path then String.append path b
  else String.append path (String "/"%char b).

Inductive details_response : Type :=
| SongDetails (id : Z) (title artist : string) (has_audio : bool)
              (audio_path : option string)
| SongNotFound.               (* status 404 *)

Section SongDetails.

Variable isalnum : ascii -> bool.        (* str.isalnum *)
Variable PARENT_DIR : string.
Variable path_exists : string -> bool.   (* os.path.exists *)

Definition SONGS_DIR : string :=
  path_join (path_join PARENT_DIR "songs") "samples".

Definition song_filename (song_id : nat) (details : song) : string :=
  let song_title := sanitize isalnum (title details) in
  let artist_name := sanitize isalnum (before_comma (artists details)) in
  String.append (zfill 2 (py_str song_id))
    (String "_"%char (String.append song_title (String "_"%char artist_name))).

Definition song_details (songs_df : list song) (song_id : nat) : details_response :=
  match List.filter (fun s => (song_index s =? Z.of_nat song_id)%Z) songs_df with
  | [] => SongNotFound
  | details :: _ =>
      let filename := song_filename song_id details in
      let audio_path := path_join SONGS_DIR (String.append filename ".mp3") in
      let has_audio := path_exists audio_path in
      SongDetails (song_index details) (title details) (artists details) has_audio
                  (if has_audio then Some audio_path else None)
  end.

End SongDetails.

(** A decimal digit. *)
Definition is_digit (c : ascii) : Prop := In c (String.list_ascii_of_string "0123456789").

(** [str.isalnum] on the ASCII characters. *)
Definition ascii_isalnum (c : ascii) : bool :=
  (Ascii.leb "0" c && Ascii.leb c "9") || (Ascii.leb "A" c && Ascii.leb c "Z")
  || (Ascii.leb "a" c && Ascii.leb c "z").

(** [n.sum()] over the bin counts. *)
Definition sum_nat (l : list nat) : nat := fold_left Nat.add l 0%nat.

(** * Properties *)

(** ** Comparisons *)

Lemma Qltb_lt (x y : Q) : Qltb x y = true <-> x < y.
Proof.
  unfold Qltb. rewrite negb_true_iff, <- not_true_iff_false, Qle_bool_iff.
  split; [apply Qnot_le_lt | apply Qlt_not_le].
Qed.

Lemma Qltb_ge (x y : Q) : Qltb x y = false <-> y <= x.
Proof.
  unfold Qltb. rewrite negb_false_iff. apply Qle_bool_iff.
Qed.

(** ** [np.argmax] returns the first index of the largest value *)

Lemma argmax_from_spec (xs : list Q) :
  forall (pre : list Q) (best : nat) (bv : Q),
    (best < length pre)%nat ->
    nth best pre 0 = bv ->
    (forall j, (j < length pre)%nat -> nth j pre 0 <= bv) ->
    (forall j, (j < best)%nat -> nth j pre 0 < bv) ->
    let k := argmax_from best bv (length pre) xs in
    (k < length (pre ++ xs))%nat /\
    (forall j, (j < length (pre ++ xs))%nat ->
               nth j (pre ++ xs) 0 <= nth k (pre ++ xs) 0) /\
    (forall j, (j < k)%nat -> nth j (pre ++ xs) 0 < nth k (pre ++ xs) 0).
Proof.
  induction xs as [|x xs IH]; intros pre best bv Hb Hv Hle Hlt; simpl.
  - rewrite app_nil_r. subst bv. auto.
  - assert (Hlen : length (pre ++ [x]) = S (length pre))
      by (rewrite length_app; simpl; lia).
    assert (Hx : nth (length pre) (pre ++ [x]) 0 = x)
      by (rewrite app_nth2 by lia; rewrite Nat.sub_diag; reflexivity).
    replace (pre ++ x :: xs) with ((pre ++ [x]) ++ xs)
      by (rewrite <- app_assoc; reflexivity).
    rewrite <- Hlen.
    destruct (Qltb bv x) eqn:Hc.
    + apply Qltb_lt in Hc.
      apply IH; [lia | exact Hx | |].
      * intros j Hj. destruct (decide (j = length pre)) as [->|Hne].
        -- rewrite Hx. apply Qle_refl.
        -- rewrite app_nth1 by lia. apply Qle_trans with bv; [apply Hle; lia|].
           apply Qlt_le_weak, Hc.
      * intros j Hj. rewrite app_nth1 by lia.
        apply Qle_lt_trans with bv; [apply Hle; lia | exact Hc].
    + apply Qltb_ge in Hc.
      apply IH; [lia | rewrite app_nth1 by lia; exact Hv | |].
      * intros j Hj. destruct (decide (j = length pre)) as [->|Hne].
        -- rewrite Hx. exact Hc.
        -- rewrite app_nth1 by lia. apply Hle; lia.
      * intros j Hj. rewrite app_nth1 by lia. apply Hlt; lia.
Qed.

Lemma np_argmax_spec (a : list Q) :
  a <> [] ->
  exists k, np_argmax a = Ret k /\
            (k < length a)%nat /\
            (forall j, (j < length a)%nat -> nth j a 0 <= nth k a 0) /\
            (forall j, (j < k)%nat -> nth j a 0 < nth k a 0).
Proof.
  destruct a as [|x xs]; [congruence | intros _].
  exists (argmax_from 0 x 1 xs). split; [reflexivity|].
  apply (argmax_from_spec xs [x] 0%nat x); simpl; auto.
  - intros j Hj. assert (j = 0)%nat as -> by lia. apply Qle_refl.
  - intros j Hj. lia.
Qed.

(** ** [np.argsort] is an ascending argsort *)

Lemma insert_sorted_perm (p : nat * Q) (l : list (nat * Q)) :
  Permutation (insert_sorted p l) (p :: l).
Proof.
  induction l as [|h t IH]; simpl; [reflexivity|].
  destruct (Qle_bool (snd p) (snd h)); [reflexivity|].
  rewrite IH. apply perm_swap.
Qed.

Lemma sort_pairs_perm (l : list (nat * Q)) : Permutation (sort_pairs l) l.
Proof.
  induction l as [|p l IH]; simpl; [reflexivity|].
  rewrite insert_sorted_perm. now rewrite IH.
Qed.

Lemma insert_sorted_sorted (p : nat * Q) (l : list (nat * Q)) :
  StronglySorted by_value l -> StronglySorted by_value (insert_sorted p l).
Proof.
  induction l as [|h t IH]; intros Hs; simpl.
  - repeat constructor.
  - inversion Hs as [|? ? Ht Hh]; subst.
    destruct (Qle_bool (snd p) (snd h)) eqn:Hc.
    + apply Qle_bool_iff in Hc. constructor; [exact Hs|].
      constructor; [exact Hc|].
      eapply Forall_impl; [exact Hh|]. unfold by_value. simpl.
      intros q Hq. eapply Qle_trans; eassumption.
    + assert (Hhp : snd h <= snd p).
      { apply Qlt_le_weak, Qnot_le_lt. intros Hle.
        apply Qle_bool_iff in Hle. congruence. }
      constructor; [apply IH, Ht|].
      rewrite insert_sorted_perm. constructor; assumption.
Qed.

Lemma sort_pairs_sorted (l : list (nat * Q)) : StronglySorted by_value (sort_pairs l).
Proof.
  induction l as [|p l IH]; simpl; [constructor|].
  apply insert_sorted_sorted, IH.
Qed.

Lemma strongly_sorted_nth (l : list (nat * Q)) (d : nat * Q) :
  StronglySorted by_value l ->
  forall i j, (i <= j < length l)%nat -> by_value (nth i l d) (nth j l d).
Proof.
  induction 1 as [|h t Ht IH Hh]; intros i j Hij; simpl in Hij; [lia|].
  destruct i as [|i], j as [|j]; simpl; try lia.
  - apply Qle_refl.
  - rewrite List.Forall_forall in Hh. apply Hh, nth_In. lia.
  - apply IH. lia.
Qed.

Lemma map_fst_combine_seq (a : list Q) (s : nat) :
  map fst (combine (seq s (length a)) a) = seq s (length a).
Proof.
  revert s. induction a as [|x a IH]; intros s; simpl; [reflexivity|].
  now rewrite IH.
Qed.

Lemma combine_seq_values (a : list Q) (pre : list Q) :
  Forall (fun p : nat * Q => nth (fst p) (pre ++ a) 0 = snd p)
         (combine (seq (length pre) (length a)) a).
Proof.
  revert pre. induction a as [|x a IH]; intros pre; simpl; constructor.
  - simpl. rewrite app_nth2 by lia. now rewrite Nat.sub_diag.
  - specialize (IH (pre ++ [x])).
    rewrite length_app in IH. simpl in IH.
    rewrite <- app_assoc in IH. simpl in IH.
    replace (S (length pre)) with (length pre + 1)%nat by lia. exact IH.
Qed.

Lemma np_argsort_length (a : list Q) : length (np_argsort a) = length a.
Proof.
  unfold np_argsort. rewrite length_map.
  rewrite (Permutation_length (sort_pairs_perm _)).
  rewrite length_combine, length_seq. lia.
Qed.

Lemma np_argsort_is_argsort (a : list Q) : is_argsort a (np_argsort a).
Proof.
  split.
  - unfold np_argsort. rewrite sort_pairs_perm. now rewrite map_fst_combine_seq.
  - intros i j Hij. rewrite np_argsort_length in Hij.
    unfold np_argsort.
    set (ps := sort_pairs (combine (seq 0 (length a)) a)).
    assert (Hlen : length ps = length a).
    { unfold ps. rewrite (Permutation_length (sort_pairs_perm _)).
      rewrite length_combine, length_seq. lia. }
    assert (Hval : Forall (fun p : nat * Q => nth (fst p) a 0 = snd p) ps).
    { unfold ps. rewrite sort_pairs_perm. apply (combine_seq_values a []). }
    rewrite List.Forall_forall in Hval.
    change 0%nat with (fst (0%nat, 0)).
    rewrite !map_nth.
    rewrite (Hval (nth i ps (0%nat, 0))) by (apply nth_In; lia).
    rewrite (Hval (nth j ps (0%nat, 0))) by (apply nth_In; lia).
    apply strongly_sorted_nth; [apply sort_pairs_sorted | lia].
Qed.

(** ** Python indexing *)

Lemma py_index_nat {A} (l : list A) (i : nat) (a : A) :
  l !! i = Some a -> py_index l (Z.of_nat i) = Ret a.
Proof.
  intros Hl. pose proof (lookup_lt_Some _ _ _ Hl) as Hlt.
  unfold py_index.
  destruct (Z.of_nat i <? 0)%Z eqn:Hneg; [lia|].
  replace ((0 <=? Z.of_nat i)%Z && (Z.of_nat i <? Z.of_nat (length l))%Z)
    with true by (symmetry; apply andb_true_iff; lia).
  now rewrite Nat2Z.id, Hl.
Qed.

Lemma py_index_from_end {A} (l : list A) (k : nat) (a : A) :
  (0 < k <= length l)%nat ->
  l !! (length l - k)%nat = Some a ->
  py_index l (- Z.of_nat k) = Ret a.
Proof.
  intros Hk Hl. unfold py_index.
  destruct (- Z.of_nat k <? 0)%Z eqn:Hneg; [|lia].
  replace ((0 <=? - Z.of_nat k + Z.of_nat (length l))%Z
           && (- Z.of_nat k + Z.of_nat (length l) <? Z.of_nat (length l))%Z)
    with true by (symmetry; apply andb_true_iff; lia).
  replace (Z.to_nat (- Z.of_nat k + Z.of_nat (length l))) with (length l - k)%nat by lia.
  now rewrite Hl.
Qed.

Lemma py_index_out_of_range {A} (l : list A) (i : Z) :
  ~ (- Z.of_nat (length l) <= i < Z.of_nat (length l))%Z ->
  py_index l i = Raise (IndexError i (length l)).
Proof.
  intros Hi. unfold py_index.
  destruct (i <? 0)%Z eqn:Hneg.
  - replace ((0 <=? i + Z.of_nat (length l))%Z
             && (i + Z.of_nat (length l) <? Z.of_nat (length l))%Z)
      with false; [reflexivity|].
    symmetry. apply andb_false_iff. lia.
  - replace ((0 <=? i)%Z && (i <? Z.of_nat (length l))%Z) with false; [reflexivity|].
    symmetry. apply andb_false_iff. lia.
Qed.

Lemma py_index_in_range {A} (l : list A) (i : Z) :
  (- Z.of_nat (length l) <= i < Z.of_nat (length l))%Z ->
  exists a, py_index l i = Ret a /\
            l !! Z.to_nat (if (i <? 0)%Z then i + Z.of_nat (length l) else i)%Z = Some a.
Proof.
  intros Hi. unfold py_index.
  set (j := (if (i <? 0)%Z then (i + Z.of_nat (length l))%Z else i)).
  assert (Hj : (0 <= j < Z.of_nat (length l))%Z)
    by (unfold j; destruct (i <? 0)%Z eqn:E; lia).
  replace ((0 <=? j)%Z && (j <? Z.of_nat (length l))%Z)
    with true by (symmetry; apply andb_true_iff; lia).
  destruct (lookup_lt_is_Some_2 l (Z.to_nat j)) as [a Ha]; [lia|].
  exists a. now rewrite Ha.
Qed.

Lemma py_index_Ret {A} (l : list A) (i : Z) (a : A) :
  py_index l i = Ret a ->
  (- Z.of_nat (length l) <= i < Z.of_nat (length l))%Z /\
  l !! Z.to_nat (if (i <? 0)%Z then i + Z.of_nat (length l) else i)%Z = Some a.
Proof.
  intros H.
  destruct (decide (- Z.of_nat (length l) <= i < Z.of_nat (length l))%Z) as [Hi|Hi].
  - split; [exact Hi|].
    destruct (py_index_in_range l i Hi) as (b & Hb & Hl). congruence.
  - rewrite py_index_out_of_range in H by exact Hi. discriminate.
Qed.

(** ** Feature extraction *)

Lemma stat_features_cons (L : numlib) (x : Q) (xs : list Q) :
  stat_features L (x :: xs) =
  Ret [ Fin (np_mean (x :: xs));
        Fin (np_std L (x :: xs));
        Fin (fold_left Qmin xs x);
        Fin (fold_left Qmax xs x);
        Fin (energy (x :: xs));
        (if (2 <? length (x :: xs))%nat then lib_skew L (x :: xs) else Fin 0);
        (if (3 <? length (x :: xs))%nat then lib_kurtosis L (x :: xs) else Fin 0);
        entropy L (map (fun d => d + smoothing) (histogram_density (x :: xs))) ].
Proof. reflexivity. Qed.

Lemma stat_features_length (L : numlib) (data : list Q) (v : list fval) :
  stat_features L data = Ret v -> length v = 8%nat.
Proof.
  destruct data as [|x xs]; [discriminate|].
  rewrite stat_features_cons. intros [= <-]. reflexivity.
Qed.

(** C2.  For a non-empty heart-rate sequence and an accelerometer
    argument that is absent or empty, [extract_features] returns a
    vector of length 32; its entries 8 to 31 are all [0]; its first eight
    entries are, in this order, mean, std, min, max, energy, skew,
    kurtosis and entropy of the heart-rate sequence. *)
Theorem no_accelerometer_zero_block
  (L : numlib) (hr : list Q) (acc : option (list acc_item)) :
  hr <> [] ->
  acc = None \/ acc = Some [] ->
  exists mn mx v,
    np_min hr = Ret mn /\ np_max hr = Ret mx /\
    extract_features L hr acc = Ret v /\
    length v = 32%nat /\
    (forall i, (8 <= i < 32)%nat -> v !! i = Some (Fin 0)) /\
    take 8 v =
      [ Fin (np_mean hr); Fin (np_std L hr); Fin mn; Fin mx; Fin (energy hr);
        (if (2 <? length hr)%nat then lib_skew L hr else Fin 0);
        (if (3 <? length hr)%nat then lib_kurtosis L hr else Fin 0);
        entropy L (map (fun d => d + smoothing) (histogram_density hr)) ].
Proof.
  intros Hne Hacc. destruct hr as [|x xs]; [congruence|].
  exists (fold_left Qmin xs x), (fold_left Qmax xs x).
  eexists. split; [reflexivity|]. split; [reflexivity|].
  split.
  - unfold extract_features. rewrite stat_features_cons.
    destruct Hacc as [-> | ->]; reflexivity.
  - split; [reflexivity|]. split; [|reflexivity].
    intros i Hi.
    do 8 (destruct i as [|i]; [lia|]).
    do 24 (destruct i as [|i]; [reflexivity|]).
    lia.
Qed.

Lemma no_accelerometer_zero_block_witness :
  exists mn mx v,
    np_min [70; 72; 68; 75] = Ret mn /\ np_max [70; 72; 68; 75] = Ret mx /\
    extract_features reflib [70; 72; 68; 75] None = Ret v /\
    length v = 32%nat /\
    (forall i, (8 <= i < 32)%nat -> v !! i = Some (Fin 0)) /\
    take 8 v =
      [ Fin (np_mean [70; 72; 68; 75]); Fin (np_std reflib [70; 72; 68; 75]);
        Fin mn; Fin mx; Fin (energy [70; 72; 68; 75]);
        (if (2 <? length [70; 72; 68; 75])%nat
         then lib_skew reflib [70; 72; 68; 75] else Fin 0);
        (if (3 <? length [70; 72; 68; 75])%nat
         then lib_kurtosis reflib [70; 72; 68; 75] else Fin 0);
        entropy reflib (map (fun d => d + smoothing)
                            (histogram_density [70; 72; 68; 75])) ].
Proof.
  apply (no_accelerometer_zero_block reflib [70; 72; 68; 75] None).
  - discriminate.
  - left. reflexivity.
Defined.

(** *** Flat and nested accelerometer input *)

Lemma all_nums_flat (ts : list (Q * Q * Q)) :
  all_nums (acc_flat ts) = Some (flat_map triple_row ts).
Proof.
  induction ts as [|t ts IH]; [reflexivity|].
  change (acc_flat (t :: ts))
    with (AccNum (fst (fst t)) :: AccNum (snd (fst t)) :: AccNum (snd t) :: acc_flat ts).
  cbn [all_nums]. rewrite IH. reflexivity.
Qed.

Lemma all_rows_nested (ts : list (Q * Q * Q)) :
  all_rows (acc_nested ts) = Some (map triple_row ts).
Proof.
  induction ts as [|t ts IH]; [reflexivity|].
  change (acc_nested (t :: ts)) with (AccRow (triple_row t) :: acc_nested ts).
  cbn [all_rows]. rewrite IH. reflexivity.
Qed.

Lemma chunk3_flat (ts : list (Q * Q * Q)) :
  chunk3 (flat_map triple_row ts) = map triple_row ts.
Proof.
  induction ts as [|t ts IH]; [reflexivity|].
  simpl. now rewrite IH.
Qed.

Lemma length_flat (ts : list (Q * Q * Q)) :
  length (flat_map triple_row ts) = (3 * length ts)%nat.
Proof.
  induction ts as [|t ts IH]; [reflexivity|].
  simpl. rewrite IH. lia.
Qed.

Lemma rows_width3 (ts : list (Q * Q * Q)) :
  forallb (fun r' : list Q => (length r' =? 3)%nat) (map triple_row ts) = true.
Proof.
  induction ts as [|t ts IH]; [reflexivity|]. simpl. exact IH.
Qed.

Lemma np_array_flat (ts : list (Q * Q * Q)) :
  np_array (acc_flat ts) = Ret (Arr1 (flat_map triple_row ts)).
Proof. unfold np_array. now rewrite all_nums_flat. Qed.

Lemma np_array_nested (t : Q * Q * Q) (ts : list (Q * Q * Q)) :
  np_array (acc_nested (t :: ts)) = Ret (Arr2 3 (map triple_row (t :: ts))).
Proof.
  unfold np_array. simpl all_nums.
  rewrite all_rows_nested. simpl.
  now rewrite rows_width3.
Qed.

Lemma reshape3_flat (ts : list (Q * Q * Q)) :
  reshape3 (Arr1 (flat_map triple_row ts)) = Ret (Arr2 3 (map triple_row ts)).
Proof.
  unfold reshape3. simpl ravel. rewrite length_flat.
  replace (3 * length ts)%nat with (length ts * 3)%nat by lia.
  rewrite Nat.Div0.mod_mul. simpl. now rewrite chunk3_flat.
Qed.

(** C6.  For every sequence of accelerometer triples, the flat
    row-major rendering and the nested rendering give the same result of
    [extract_features] (hence the same 24 per-axis statistics), the
    heart-rate sequence being the same. *)
Theorem flat_equals_nested (L : numlib) (hr : list Q) (ts : list (Q * Q * Q)) :
  extract_features L hr (Some (acc_flat ts)) =
  extract_features L hr (Some (acc_nested ts)).
Proof.
  destruct ts as [|t ts]; [reflexivity|].
  unfold extract_features.
  destruct (stat_features L hr) as [hr_features|e]; [|reflexivity].
  simpl mbind.
  pose proof (np_array_flat (t :: ts)) as Hf.
  pose proof (np_array_nested t ts) as Hn.
  pose proof (reshape3_flat (t :: ts)) as Hr.
  destruct t as [[x y] z].
  change (acc_flat ((x, y, z) :: ts))
    with (AccNum x :: AccNum y :: AccNum z :: acc_flat ts) in *.
  change (acc_nested ((x, y, z) :: ts))
    with (AccRow [x; y; z] :: acc_nested ts) in *.
  cbn [is_triple length Nat.eqb fst snd].
  rewrite Hf, Hn. cbn [mbind res_bind]. rewrite Hr. reflexivity.
Qed.

Lemma nested_accelerometer_ok (L : numlib) (hr : list Q) (ts : list (Q * Q * Q)) :
  hr <> [] -> ts <> [] ->
  exists v, extract_features L hr (Some (acc_nested ts)) = Ret v /\ length v = 32%nat.
Proof.
  intros Hhr Hts.
  destruct hr as [|h hr]; [congruence|]. destruct ts as [|t ts]; [congruence|].
  unfold extract_features. rewrite stat_features_cons.
  pose proof (np_array_nested t ts) as Hn.
  destruct t as [[x y] z].
  change (acc_nested ((x, y, z) :: ts)) with (AccRow [x; y; z] :: acc_nested ts) in *.
  cbn [mbind res_bind is_triple length Nat.eqb].
  rewrite Hn. cbn [mbind res_bind mapM seq column Nat.ltb Nat.leb map].
  rewrite !stat_features_cons. cbn [mbind res_bind].
  eexists. split; reflexivity.
Qed.

(** *** Small samples and constant samples *)

(** C7.  Whenever [extract_features] returns a vector, its skewness
    slot (index 5) is exactly [0] for fewer than 3 heart-rate samples and
    its kurtosis slot (index 6) is exactly [0] for fewer than 4; on a
    non-empty heart-rate sequence without accelerometer it never raises;
    on [[5; 5]] the std is 0 (given that the library's square root of 0
    is 0), skew and kurtosis are [0] and the entropy is finite: the bin
    widths are not zero, every smoothed bin is positive, and so is the
    normaliser. *)
Theorem small_sample_fallbacks (L : numlib) :
  (forall q, q == 0 -> lib_sqrt L q == 0) ->
  (forall hr acc v,
      extract_features L hr acc = Ret v ->
      ((length hr < 3)%nat -> v !! 5%nat = Some (Fin 0)) /\
      ((length hr < 4)%nat -> v !! 6%nat = Some (Fin 0))) /\
  (forall hr, hr <> [] -> exists v, extract_features L hr None = Ret v) /\
  (exists v std ent,
      extract_features L [5; 5] None = Ret v /\
      v !! 1%nat = Some (Fin std) /\ std == 0 /\
      v !! 5%nat = Some (Fin 0) /\
      v !! 6%nat = Some (Fin 0) /\
      v !! 7%nat = Some (Fin ent)) /\
  (let pk := map (fun d => d + smoothing) (histogram_density [5; 5]) in
   Forall (fun w => ~ w == 0) (np_diff (bin_edges (hist_range [5; 5]))) /\
   Forall (fun p => 0 < p) pk /\
   0 < np_sum pk).
Proof.
  intros Hsqrt. split; [|split; [|split]].
  - intros hr acc v Hv. unfold extract_features in Hv.
    destruct hr as [|x xs]; [discriminate|].
    rewrite stat_features_cons in Hv. cbn [mbind res_bind] in Hv.
    match type of Hv with
    | mbind _ ?m = _ => destruct m as [accf|e]; [|discriminate]
    end.
    cbn [mbind res_bind] in Hv. injection Hv as <-.
    split; intros Hlen; cbn [app lookup list_lookup].
    + destruct (2 <? _)%nat eqn:E; [|reflexivity].
      apply Nat.ltb_lt in E. simpl in Hlen. lia.
    + destruct (3 <? _)%nat eqn:E; [|reflexivity].
      apply Nat.ltb_lt in E. simpl in Hlen. lia.
  - intros hr Hne. destruct hr as [|x xs]; [congruence|].
    unfold extract_features. rewrite stat_features_cons.
    eexists. reflexivity.
  - assert (He : exists ent,
               entropy L (map (fun d => d + smoothing) (histogram_density [5; 5]))
               = Fin ent).
    { unfold entropy.
      destruct (Qeq_bool _ 0) eqn:E1; [vm_compute in E1; discriminate|].
      destruct (existsb _ _) eqn:E2; [vm_compute in E2; discriminate|].
      eexists. reflexivity. }
    destruct He as [ent He].
    exists ([ Fin (np_mean [5; 5]); Fin (np_std L [5; 5]); Fin 5; Fin 5;
              Fin (energy [5; 5]); Fin 0; Fin 0; Fin ent ] ++ zero_block).
    exists (np_std L [5; 5]), ent.
    split; [|split; [reflexivity|split; [|repeat split]]].
    + unfold extract_features. rewrite stat_features_cons, He. reflexivity.
    + unfold np_std. apply Hsqrt. now vm_compute.
  - cbv zeta. split; [|split].
    + vm_compute. repeat constructor; discriminate.
    + vm_compute. repeat constructor.
    + now vm_compute.
Qed.

Lemma ref_sqrt_zero (q : Q) : q == 0 -> lib_sqrt reflib q == 0.
Proof.
  intros Hq. simpl. unfold ref_sqrt. rewrite Qred_correct.
  destruct q as [n d]. unfold Qeq in Hq. simpl in Hq.
  assert (n = 0%Z) as -> by lia.
  simpl. reflexivity.
Qed.

Lemma small_sample_fallbacks_witness :
  exists v std ent,
    extract_features reflib [5; 5] None = Ret v /\
    v !! 1%nat = Some (Fin std) /\ std == 0 /\
    v !! 5%nat = Some (Fin 0) /\
    v !! 6%nat = Some (Fin 0) /\
    v !! 7%nat = Some (Fin ent).
Proof.
  exact (proj1 (proj2 (proj2 (small_sample_fallbacks reflib ref_sqrt_zero)))).
Defined.

(** *** Flat accelerometer input of a length that 3 does not divide *)

Lemma all_nums_map (xs : list Q) : all_nums (map AccNum xs) = Some xs.
Proof.
  induction xs as [|x xs IH]; [reflexivity|]. simpl. now rewrite IH.
Qed.

Lemma extract_features_bad_flat (L : numlib) (hr xs : list Q) :
  hr <> [] ->
  (length xs mod 3 <> 0)%nat ->
  extract_features L hr (Some (map AccNum xs)) = Raise (ReshapeError (length xs)).
Proof.
  intros Hhr Hmod. destruct hr as [|h hr]; [congruence|].
  destruct xs as [|x xs]; [simpl in Hmod; congruence|].
  unfold extract_features. rewrite stat_features_cons.
  cbn [mbind res_bind map is_triple].
  change (AccNum x :: map AccNum xs) with (map AccNum (x :: xs)).
  unfold np_array. rewrite all_nums_map. cbn [mbind res_bind].
  unfold reshape3. cbn [ravel].
  destruct (length (x :: xs) mod 3 =? 0)%nat eqn:E.
  - apply Nat.eqb_eq in E. congruence.
  - reflexivity.
Qed.

Lemma hr_sequence_nonempty (normal : nat -> Q) (h : hr_json) :
  truthy h = true -> hr_sequence normal h <> [].
Proof.
  destruct h as [|x|xs]; simpl; [discriminate| |].
  - intros _. discriminate.
  - destruct xs; [discriminate|]. intros _. discriminate.
Qed.

(** C4, as the code has it.  For a flat accelerometer array whose
    length 3 does not divide, [extract_features] raises the reshape
    error of numpy (on a non-empty heart-rate sequence; on an empty one
    it raises as well) and never returns a vector; the endpoint answers
    a request with a truthy heart rate through its catch-all handler,
    with status 500 and that error, and never with a decision. *)
Theorem bad_flat_accelerometer_is_error_500
  (L : numlib) (ms : models) (normal : nat -> Q) (req : request) (xs : list Q) :
  accelerometer req = Some (map AccNum xs) ->
  (length xs mod 3 <> 0)%nat ->
  (forall hr, hr <> [] ->
     extract_features L hr (Some (map AccNum xs)) = Raise (ReshapeError (length xs))) /\
  (forall hr, exists e, extract_features L hr (Some (map AccNum xs)) = Raise e) /\
  (truthy (heart_rate req) = true ->
     predict_mood L ms normal req = Error500 (ReshapeError (length xs))) /\
  (forall d, predict_mood L ms normal req <> Ok200 d).
Proof.
  intros Hacc Hmod.
  assert (H1 : forall hr, hr <> [] ->
             extract_features L hr (Some (map AccNum xs))
             = Raise (ReshapeError (length xs)))
    by (intros hr Hhr; now apply extract_features_bad_flat).
  assert (H3 : truthy (heart_rate req) = true ->
               predict_mood L ms normal req = Error500 (ReshapeError (length xs))).
  { intros Ht. unfold predict_mood, infer. rewrite Ht, Hacc. cbn [negb].
    rewrite H1 by now apply hr_sequence_nonempty. reflexivity. }
  split; [exact H1|]. split; [|split; [exact H3|]].
  - intros [|h hr].
    + exists EmptyReduction. reflexivity.
    + eexists. apply H1. discriminate.
  - intros d. destruct (truthy (heart_rate req)) eqn:Ht.
    + rewrite H3 by reflexivity. discriminate.
    + unfold predict_mood. rewrite Ht. discriminate.
Qed.

Lemma bad_flat_accelerometer_is_error_500_witness :
  predict_mood reflib happy_models (fun _ => 0) seven_flat
  = Error500 (ReshapeError 7).
Proof.
  apply (proj1 (proj2 (proj2
    (bad_flat_accelerometer_is_error_500 reflib happy_models (fun _ => 0)
       seven_flat [1; 2; 3; 4; 5; 6; 7] eq_refl ltac:(simpl; lia))))).
  reflexivity.
Defined.

(** C4, as stated, fails: a flat accelerometer array of length 7 is
    answered with status 500, the answer of the catch-all handler, and
    not with an input error (status 400). *)
Lemma bad_flat_accelerometer_not_input_error :
  predict_mood reflib happy_models (fun _ => 0) seven_flat
  = Error500 (ReshapeError 7) /\
  ~ is_input_error (predict_mood reflib happy_models (fun _ => 0) seven_flat).
Proof.
  assert (H : predict_mood reflib happy_models (fun _ => 0) seven_flat
              = Error500 (ReshapeError 7)).
  { unfold predict_mood, infer, seven_flat.
    cbn [heart_rate accelerometer truthy length Nat.eqb negb hr_sequence].
    rewrite extract_features_bad_flat; [reflexivity | discriminate | simpl; lia]. }
  split; [exact H|]. rewrite H. intros [msg Hm]. discriminate.
Qed.

(** *** Falsy heart rate *)

(** C10.  The endpoint answers status 400, "Heart rate data is
    required", to every request whose [heart_rate] is falsy: absent, the
    empty array, and the number 0; whatever the models and the random
    generator, so no sequence is synthesised for the scalar 0. *)
Theorem falsy_heart_rate_rejected
  (L : numlib) (ms : models) (normal : nat -> Q) (acc : option (list acc_item)) :
  predict_mood L ms normal {| heart_rate := HrAbsent; accelerometer := acc |}
  = Error400 "Heart rate data is required" /\
  predict_mood L ms normal {| heart_rate := HrList []; accelerometer := acc |}
  = Error400 "Heart rate data is required" /\
  (forall q, q == 0 ->
     predict_mood L ms normal {| heart_rate := HrNumber q; accelerometer := acc |}
     = Error400 "Heart rate data is required") /\
  (forall req, truthy (heart_rate req) = false ->
     predict_mood L ms normal req = Error400 "Heart rate data is required").
Proof.
  split; [reflexivity|]. split; [reflexivity|]. split.
  - intros q Hq. unfold predict_mood. cbn [heart_rate truthy].
    apply Qeq_bool_iff in Hq. rewrite Hq. reflexivity.
  - intros req Hf. unfold predict_mood. rewrite Hf. reflexivity.
Qed.

Lemma falsy_heart_rate_rejected_witness :
  predict_mood reflib happy_models (fun _ => 0)
    {| heart_rate := HrNumber 0.0; accelerometer := None |}
  = Error400 "Heart rate data is required".
Proof.
  apply (proj1 (proj2 (proj2
    (falsy_heart_rate_rejected reflib happy_models (fun _ => 0) None)))).
  reflexivity.
Defined.

(** ** The ensemble *)

Lemma blend_length (p1 p2 : list Q) :
  length p1 = length p2 -> length (blend p1 p2) = length p1.
Proof.
  intros H. unfold blend, np_scale.
  rewrite length_zip_with, !length_map. lia.
Qed.

Lemma blend_nth (p1 p2 : list Q) (i : nat) :
  length p1 = length p2 -> (i < length p1)%nat ->
  nth i (blend p1 p2) 0 = 0.6 * nth i p1 0 + 0.4 * nth i p2 0.
Proof.
  revert p2 i. induction p1 as [|a p1 IH]; intros [|b p2] i Hl Hi;
    simpl in *; try lia.
  destruct i as [|i]; [reflexivity|]. apply IH; lia.
Qed.

Lemma np_add_same_length (a b : list Q) :
  length a = length b -> np_add a b = Ret (zip_with Qplus a b).
Proof. intros H. unfold np_add. now rewrite H, Nat.eqb_refl. Qed.

Lemma confidence_four (c0 c1 c2 c3 : Q) :
  mapM (fun i => name ← py_index MOOD_NAMES (Z.of_nat i);
                 c ← py_index [c0; c1; c2; c3] (Z.of_nat i);
                 Ret (name, c))
       (seq 0 (length MOOD_NAMES))
  = Ret (combine MOOD_NAMES [c0; c1; c2; c3]).
Proof. reflexivity. Qed.

Lemma argsort_member (a : list Q) (i s : nat) :
  np_argsort a !! i = Some s -> (s < length a)%nat.
Proof.
  intros H. apply list_elem_of_lookup_2 in H. apply list_elem_of_In in H.
  destruct (np_argsort_is_argsort a) as [Hp _].
  apply (Permutation_in _ Hp) in H. apply in_seq in H. lia.
Qed.

(** On two vectors of four probabilities the ensemble fails only on a
    predicted class that is not an index of [MOOD_NAMES]. *)
Lemma ensemble_four (pred1 pred2 : Z) (p1 p2 : list Q) :
  length p1 = 4%nat -> length p2 = 4%nat ->
  exists k s primary secondary,
    np_argmax (blend p1 p2) = Ret k /\
    (k < 4)%nat /\
    (forall j, (j < 4)%nat -> nth j (blend p1 p2) 0 <= nth k (blend p1 p2) 0) /\
    (forall j, (j < k)%nat -> nth j (blend p1 p2) 0 < nth k (blend p1 p2) 0) /\
    np_argsort (blend p1 p2) !! 2%nat = Some s /\
    MOOD_NAMES !! k = Some primary /\
    MOOD_NAMES !! s = Some secondary /\
    ensemble pred1 pred2 p1 p2 =
      (m1 ← py_index MOOD_NAMES pred1;
       m2 ← py_index MOOD_NAMES pred2;
       Ret {| primary_mood := primary;
              secondary_mood := secondary;
              model1_prediction := m1;
              model2_prediction := m2;
              confidence := combine MOOD_NAMES (blend p1 p2) |}).
Proof.
  intros H1 H2.
  assert (Hlen : length (blend p1 p2) = 4%nat)
    by (rewrite blend_length; congruence).
  destruct (np_argmax_spec (blend p1 p2)) as (k & Hk & Hk4 & Hmax & Hfirst).
  { intros E. rewrite E in Hlen. discriminate. }
  rewrite Hlen in Hk4, Hmax.
  destruct (lookup_lt_is_Some_2 (np_argsort (blend p1 p2)) 2) as [s Hs].
  { rewrite np_argsort_length. lia. }
  pose proof (argsort_member _ _ _ Hs) as Hs4. rewrite Hlen in Hs4.
  destruct (lookup_lt_is_Some_2 MOOD_NAMES k) as [primary Hp]; [simpl; lia|].
  destruct (lookup_lt_is_Some_2 MOOD_NAMES s) as [secondary Hsec]; [simpl; lia|].
  exists k, s, primary, secondary.
  repeat (split; [assumption|]).
  unfold ensemble.
  rewrite np_add_same_length by (unfold np_scale; rewrite !length_map; congruence).
  fold (blend p1 p2). cbn [mbind res_bind].
  rewrite Hk. cbn [mbind res_bind].
  rewrite (py_index_nat _ _ _ Hp). cbn [mbind res_bind].
  change (-2)%Z with (- Z.of_nat 2)%Z.
  rewrite (py_index_from_end (np_argsort (blend p1 p2)) 2 s);
    [| rewrite np_argsort_length; lia
     | rewrite np_argsort_length, Hlen; exact Hs].
  cbn [mbind res_bind].
  rewrite (py_index_nat _ _ _ Hsec). cbn [mbind res_bind].
  destruct (blend p1 p2) as [|c0 [|c1 [|c2 [|c3 [|? ?]]]]]; try discriminate.
  rewrite confidence_four. reflexivity.
Qed.

Lemma py_index_moods_valid (pred : Z) :
  (-4 <= pred < 4)%Z -> exists m, py_index MOOD_NAMES pred = Ret m.
Proof.
  intros H. destruct (py_index_in_range MOOD_NAMES pred) as (m & Hm & _);
    [simpl; lia|]. eauto.
Qed.

Lemma ensemble_four_returns (pred1 pred2 : Z) (p1 p2 : list Q) :
  length p1 = 4%nat -> length p2 = 4%nat ->
  (-4 <= pred1 < 4)%Z -> (-4 <= pred2 < 4)%Z ->
  exists d, ensemble pred1 pred2 p1 p2 = Ret d.
Proof.
  intros H1 H2 Hp1 Hp2.
  destruct (ensemble_four pred1 pred2 p1 p2 H1 H2)
    as (k & s & pr & se & _ & _ & _ & _ & _ & _ & _ & He).
  destruct (py_index_moods_valid pred1 Hp1) as [m1 Hm1].
  destruct (py_index_moods_valid pred2 Hp2) as [m2 Hm2].
  rewrite He, Hm1. cbn [mbind res_bind]. rewrite Hm2. cbn [mbind res_bind].
  eauto.
Qed.

Lemma ensemble_four_decision (pred1 pred2 : Z) (p1 p2 : list Q) (d : decision) :
  length p1 = 4%nat -> length p2 = 4%nat ->
  ensemble pred1 pred2 p1 p2 = Ret d ->
  exists k s,
    np_argmax (blend p1 p2) = Ret k /\
    np_argsort (blend p1 p2) !! 2%nat = Some s /\
    MOOD_NAMES !! k = Some (primary_mood d) /\
    MOOD_NAMES !! s = Some (secondary_mood d) /\
    confidence d = combine MOOD_NAMES (blend p1 p2).
Proof.
  intros H1 H2 Hd.
  destruct (ensemble_four pred1 pred2 p1 p2 H1 H2)
    as (k & s & pr & se & Hk & _ & _ & _ & Hs & Hpr & Hse & He).
  rewrite He in Hd.
  destruct (py_index MOOD_NAMES pred1) as [m1|e]; [|discriminate].
  cbn [mbind res_bind] in Hd.
  destruct (py_index MOOD_NAMES pred2) as [m2|e]; [|discriminate].
  cbn [mbind res_bind] in Hd. injection Hd as <-.
  exists k, s. cbn [primary_mood secondary_mood confidence]. auto.
Qed.

(** C1.  For two probability vectors of length 4, line 127 computes
    [combined[i] = 0.6 * proba1[i] + 0.4 * proba2[i]] for each class [i];
    [np.argmax] returns an index [k] of a largest entry, every entry
    before [k] being strictly smaller (the first occurrence wins); the
    primary mood of every decision returned is [MOOD_NAMES[k]] and the
    confidence map pairs [MOOD_NAMES] with [combined]; a decision is
    returned whenever both predicted classes index [MOOD_NAMES]. *)
Theorem blend_and_primary (pred1 pred2 : Z) (proba1 proba2 : list Q) :
  length proba1 = 4%nat -> length proba2 = 4%nat ->
  exists combined k,
    np_add (np_scale 0.6 proba1) (np_scale 0.4 proba2) = Ret combined /\
    length combined = 4%nat /\
    (forall i, (i < 4)%nat ->
       nth i combined 0 = 0.6 * nth i proba1 0 + 0.4 * nth i proba2 0) /\
    np_argmax combined = Ret k /\
    (k < 4)%nat /\
    (forall j, (j < 4)%nat -> nth j combined 0 <= nth k combined 0) /\
    (forall j, (j < k)%nat -> nth j combined 0 < nth k combined 0) /\
    (forall d, ensemble pred1 pred2 proba1 proba2 = Ret d ->
       MOOD_NAMES !! k = Some (primary_mood d) /\
       confidence d = combine MOOD_NAMES combined) /\
    ((-4 <= pred1 < 4)%Z -> (-4 <= pred2 < 4)%Z ->
       exists d, ensemble pred1 pred2 proba1 proba2 = Ret d).
Proof.
  intros H1 H2.
  destruct (ensemble_four pred1 pred2 proba1 proba2 H1 H2)
    as (k & s & pr & se & Hk & Hk4 & Hmax & Hfirst & _).
  exists (blend proba1 proba2), k.
  split. { apply np_add_same_length. unfold np_scale. rewrite !length_map. congruence. }
  split. { rewrite blend_length; congruence. }
  split. { intros i Hi. apply blend_nth; [congruence | lia]. }
  repeat (split; [assumption|]).
  split.
  - intros d Hd.
    destruct (ensemble_four_decision _ _ _ _ _ H1 H2 Hd)
      as (k' & s' & Hk' & _ & Hp & _ & Hc).
    rewrite Hk in Hk'. injection Hk' as <-. auto.
  - intros Hp1 Hp2. now apply ensemble_four_returns.
Qed.

Lemma blend_and_primary_witness :
  exists combined k,
    np_add (np_scale 0.6 [0.7; 0.1; 0.1; 0.1]) (np_scale 0.4 [0.1; 0.7; 0.1; 0.1])
    = Ret combined /\
    length combined = 4%nat /\
    (forall i, (i < 4)%nat ->
       nth i combined 0
       = 0.6 * nth i [0.7; 0.1; 0.1; 0.1] 0 + 0.4 * nth i [0.1; 0.7; 0.1; 0.1] 0) /\
    np_argmax combined = Ret k /\
    (k < 4)%nat /\
    (forall j, (j < 4)%nat -> nth j combined 0 <= nth k combined 0) /\
    (forall j, (j < k)%nat -> nth j combined 0 < nth k combined 0) /\
    (forall d, ensemble 0 1 [0.7; 0.1; 0.1; 0.1] [0.1; 0.7; 0.1; 0.1] = Ret d ->
       MOOD_NAMES !! k = Some (primary_mood d) /\
       confidence d = combine MOOD_NAMES combined) /\
    ((-4 <= 0 < 4)%Z -> (-4 <= 1 < 4)%Z ->
       exists d, ensemble 0 1 [0.7; 0.1; 0.1; 0.1] [0.1; 0.7; 0.1; 0.1] = Ret d).
Proof.
  apply (blend_and_primary 0 1 [0.7; 0.1; 0.1; 0.1] [0.1; 0.7; 0.1; 0.1]);
    reflexivity.
Defined.

Lemma map_snd_combine_moods (c : list Q) :
  length c = 4%nat -> map snd (combine MOOD_NAMES c) = c.
Proof.
  intros H. destruct c as [|c0 [|c1 [|c2 [|c3 [|? ?]]]]]; try discriminate.
  reflexivity.
Qed.

Lemma blend_sum (p1 p2 : list Q) :
  length p1 = 4%nat -> length p2 = 4%nat ->
  np_sum (blend p1 p2) == 0.6 * np_sum p1 + 0.4 * np_sum p2.
Proof.
  intros H1 H2.
  destruct p1 as [|a0 [|a1 [|a2 [|a3 [|? ?]]]]]; try discriminate.
  destruct p2 as [|b0 [|b1 [|b2 [|b3 [|? ?]]]]]; try discriminate.
  unfold blend, np_scale, np_sum. simpl. ring.
Qed.

(** C8.  When both probability vectors have length 4 and sum to 1,
    the four confidence values of every decision returned sum to 1
    exactly, hence within 1e-6; a decision is returned whenever both
    predicted classes index [MOOD_NAMES]. *)
Theorem confidence_sums_to_one (pred1 pred2 : Z) (proba1 proba2 : list Q) :
  length proba1 = 4%nat -> length proba2 = 4%nat ->
  np_sum proba1 == 1 -> np_sum proba2 == 1 ->
  (forall d, ensemble pred1 pred2 proba1 proba2 = Ret d ->
     length (confidence d) = 4%nat /\
     np_sum (map snd (confidence d)) == 1 /\
     Qabs (np_sum (map snd (confidence d)) - 1) <= 1e-6) /\
  ((-4 <= pred1 < 4)%Z -> (-4 <= pred2 < 4)%Z ->
     exists d, ensemble pred1 pred2 proba1 proba2 = Ret d).
Proof.
  intros H1 H2 S1 S2. split.
  - intros d Hd.
    destruct (ensemble_four_decision _ _ _ _ _ H1 H2 Hd)
      as (k & s & _ & _ & _ & _ & Hc).
    assert (Hlen : length (blend proba1 proba2) = 4%nat)
      by (rewrite blend_length; congruence).
    assert (Hsum : np_sum (map snd (confidence d)) == 1).
    { rewrite Hc, map_snd_combine_moods by exact Hlen.
      rewrite blend_sum by assumption. rewrite S1, S2. reflexivity. }
    split; [|split; [exact Hsum|]].
    + rewrite Hc, length_combine, Hlen. reflexivity.
    + apply Qabs_Qle_condition. rewrite Hsum. split; discriminate.
  - intros Hp1 Hp2. now apply ensemble_four_returns.
Qed.

Lemma confidence_sums_to_one_witness :
  (forall d, ensemble 0 0 [0.7; 0.1; 0.1; 0.1] [0.5; 0.2; 0.2; 0.1] = Ret d ->
     length (confidence d) = 4%nat /\
     np_sum (map snd (confidence d)) == 1 /\
     Qabs (np_sum (map snd (confidence d)) - 1) <= 1e-6) /\
  ((-4 <= 0 < 4)%Z -> (-4 <= 0 < 4)%Z ->
     exists d, ensemble 0 0 [0.7; 0.1; 0.1; 0.1] [0.5; 0.2; 0.2; 0.1] = Ret d).
Proof.
  apply (confidence_sums_to_one 0 0 [0.7; 0.1; 0.1; 0.1] [0.5; 0.2; 0.2; 0.1]);
    reflexivity.
Defined.

(** *** The secondary mood *)

Lemma ensemble_secondary (pred1 pred2 : Z) (p1 p2 : list Q) (d : decision) :
  ensemble pred1 pred2 p1 p2 = Ret d ->
  exists combined s,
    np_add (np_scale 0.6 p1) (np_scale 0.4 p2) = Ret combined /\
    (2 <= length combined)%nat /\
    np_argsort combined !! (length combined - 2)%nat = Some s /\
    MOOD_NAMES !! s = Some (secondary_mood d).
Proof.
  unfold ensemble. intros Hd.
  destruct (np_add _ _) as [c|e]; [|discriminate]. cbn [mbind res_bind] in Hd.
  destruct (np_argmax c) as [k|e]; [|discriminate]. cbn [mbind res_bind] in Hd.
  destruct (py_index MOOD_NAMES (Z.of_nat k)) as [pr|e]; [|discriminate].
  cbn [mbind res_bind] in Hd.
  destruct (py_index (np_argsort c) (-2)) as [s|e] eqn:Hs; [|discriminate].
  cbn [mbind res_bind] in Hd.
  destruct (py_index MOOD_NAMES (Z.of_nat s)) as [se|e] eqn:Hse; [|discriminate].
  cbn [mbind res_bind] in Hd.
  destruct (mapM _ _) as [conf|e]; [|discriminate]. cbn [mbind res_bind] in Hd.
  destruct (py_index MOOD_NAMES pred1) as [m1|e]; [|discriminate].
  cbn [mbind res_bind] in Hd.
  destruct (py_index MOOD_NAMES pred2) as [m2|e]; [|discriminate].
  cbn [mbind res_bind] in Hd. injection Hd as <-.
  apply py_index_Ret in Hs. destruct Hs as [Hr Hs].
  rewrite np_argsort_length in Hr, Hs.
  apply py_index_Ret in Hse. destruct Hse as [_ Hse].
  exists c, s. split; [reflexivity|]. split; [lia|]. split.
  - replace (length c - 2)%nat
      with (Z.to_nat (if (-2 <? 0)%Z then (-2 + Z.of_nat (length c))%Z else (-2)%Z)).
    + exact Hs.
    + change (-2 <? 0)%Z with true. cbv iota. lia.
  - cbn [secondary_mood].
    destruct (Z.of_nat s <? 0)%Z eqn:E; [apply Z.ltb_lt in E; lia|].
    now rewrite Nat2Z.id in Hse.
Qed.

Lemma stub_tie_any_argsort (order : list nat) :
  is_argsort stub_combined order ->
  nth 2 order 0%nat = 1%nat \/ nth 2 order 0%nat = 2%nat.
Proof.
  intros [Hperm Hsorted].
  pose proof (Permutation_length Hperm) as Hlen.
  change (length (seq 0 (length stub_combined))) with 4%nat in Hlen.
  destruct order as [|a [|b [|c [|d [|? ?]]]]]; try discriminate.
  assert (Hnd : List.NoDup [a; b; c; d]).
  { apply (Permutation_NoDup (Permutation_sym Hperm)), seq_NoDup. }
  assert (Hin : forall x, In x [a; b; c; d] -> (x < 4)%nat).
  { intros x Hx. apply (Permutation_in _ Hperm) in Hx.
    apply in_seq in Hx. simpl in Hx. lia. }
  pose proof (Hin b ltac:(simpl; auto)) as Hb.
  pose proof (Hin c ltac:(simpl; auto)) as Hc.
  pose proof (Hin d ltac:(simpl; auto)) as Hd.
  pose proof (Hsorted 1%nat 2%nat ltac:(simpl; lia)) as H12.
  pose proof (Hsorted 2%nat 3%nat ltac:(simpl; lia)) as H23.
  cbn [nth] in *.
  inversion Hnd as [|? ? Ha Hnd1]; subst.
  inversion Hnd1 as [|? ? Hb' Hnd2]; subst.
  inversion Hnd2 as [|? ? Hc' _]; subst.
  simpl in Hb', Hc'.
  destruct c as [|[|[|[|c]]]]; try lia; auto.
  - (* the largest value at position -2: position -1 must repeat it *)
    destruct d as [|[|[|[|d]]]]; try lia;
      try (exfalso; apply Hc'; auto; fail);
      vm_compute in H23; exfalso; apply H23; reflexivity.
  - (* the smallest value at position -2: position 1 must repeat it *)
    destruct b as [|[|[|[|b]]]]; try lia;
      try (exfalso; apply Hb'; auto; fail);
      vm_compute in H12; exfalso; apply H12; reflexivity.
Qed.

(** C3.  The secondary mood of every decision returned is the name
    at the second-from-last position of [np.argsort] of the combined
    vector, which is an ascending argsort.  On the stub vectors
    [[0.7; 0.1; 0.1; 0.1]] and [[0.5; 0.2; 0.2; 0.1]] the combined
    vector is [[0.62; 0.14; 0.14; 0.10]], the primary mood is Happy and
    the secondary mood is Sad; whatever ascending argsort is used, the
    second-from-last position holds Angry or Sad. *)
Theorem secondary_is_second_from_last :
  (forall pred1 pred2 proba1 proba2 d,
     ensemble pred1 pred2 proba1 proba2 = Ret d ->
     exists combined s,
       np_add (np_scale 0.6 proba1) (np_scale 0.4 proba2) = Ret combined /\
       is_argsort combined (np_argsort combined) /\
       (2 <= length combined)%nat /\
       np_argsort combined !! (length combined - 2)%nat = Some s /\
       MOOD_NAMES !! s = Some (secondary_mood d)) /\
  (exists d,
     ensemble 0 0 [0.7; 0.1; 0.1; 0.1] [0.5; 0.2; 0.2; 0.1] = Ret d /\
     map fst (confidence d) = MOOD_NAMES /\
     Forall2 Qeq (map snd (confidence d)) [0.62; 0.14; 0.14; 0.10] /\
     primary_mood d = "Happy"%string /\
     secondary_mood d = "Sad"%string) /\
  (forall order, is_argsort stub_combined order ->
     MOOD_NAMES !! nth 2 order 0%nat = Some "Angry"%string \/
     MOOD_NAMES !! nth 2 order 0%nat = Some "Sad"%string).
Proof.
  split; [|split].
  - intros pred1 pred2 p1 p2 d Hd.
    destruct (ensemble_secondary _ _ _ _ _ Hd) as (c & s & Hc & Hl & Hs & Hm).
    exists c, s. repeat (split; [assumption|]).
    split; [apply np_argsort_is_argsort|]. auto.
  - eexists. split; [vm_compute; reflexivity|].
    cbn [confidence primary_mood secondary_mood map fst snd].
    split; [reflexivity|]. split; [|split; reflexivity].
    repeat constructor.
  - intros order Ho.
    destruct (stub_tie_any_argsort order Ho) as [-> | ->]; [left | right]; reflexivity.
Qed.

Lemma secondary_is_second_from_last_witness :
  exists combined s,
    np_add (np_scale 0.6 [0.7; 0.1; 0.1; 0.1]) (np_scale 0.4 [0.5; 0.2; 0.2; 0.1])
    = Ret combined /\
    is_argsort combined (np_argsort combined) /\
    (2 <= length combined)%nat /\
    np_argsort combined !! (length combined - 2)%nat = Some s /\
    MOOD_NAMES !! s = Some "Sad"%string.
Proof.
  exact (proj1 secondary_is_second_from_last 0%Z 0%Z
           [0.7; 0.1; 0.1; 0.1] [0.5; 0.2; 0.2; 0.1] _ eq_refl).
Defined.

(** ** Class counts of the two classifiers *)

Lemma np_add_mismatch (a b : list Q) :
  length a <> length b -> length a <> 1%nat -> length b <> 1%nat ->
  np_add a b = Raise (BroadcastError (length a) (length b)).
Proof.
  intros Hne Ha Hb. unfold np_add.
  destruct (length a =? length b)%nat eqn:E; [apply Nat.eqb_eq in E; congruence|].
  destruct a as [|x [|x' a]]; [| simpl in Ha; congruence |];
    (destruct b as [|y [|y' b]]; [| simpl in Hb; congruence |]); reflexivity.
Qed.

Lemma load_models_present (m1 m2 : classifier) (s1 s2 : scaler) :
  load_models {| xgb_emotion_model_pkl := Some m1; xgb_scaler_pkl := Some s1;
                 xgb_emotion_model2_pkl := Some m2; xgb_scaler2_pkl := Some s2 |}
  = Ret {| model1 := m1; scaler1 := s1; model2 := m2; scaler2 := s2 |}.
Proof. reflexivity. Qed.

(** C5, as the code has it.  Loading succeeds whenever the four
    files load, whatever the class counts; when the two probability
    vectors of a request differ in length (neither of length 1) the
    request is answered with status 500 and a broadcast error; when both
    have length 4 and a predicted class is outside -4..3 the request is
    answered with status 500 and an index error. *)
Theorem class_count_mismatch_is_per_request
  (L : numlib) (m1 m2 : classifier) (s1 s2 : scaler) (normal : nat -> Q)
  (req : request) (f f1 f2 : list fval) (pred1 pred2 : Z) (p1 p2 : list Q) :
  truthy (heart_rate req) = true ->
  extract_features L (hr_sequence normal (heart_rate req)) (accelerometer req) = Ret f ->
  transform s1 f = Ret f1 -> transform s2 f = Ret f2 ->
  predict m1 f1 = Ret pred1 -> predict m2 f2 = Ret pred2 ->
  predict_proba m1 f1 = Ret p1 -> predict_proba m2 f2 = Ret p2 ->
  exists ms,
    load_models {| xgb_emotion_model_pkl := Some m1; xgb_scaler_pkl := Some s1;
                   xgb_emotion_model2_pkl := Some m2; xgb_scaler2_pkl := Some s2 |}
    = Ret ms /\
    (length p1 <> length p2 -> length p1 <> 1%nat -> length p2 <> 1%nat ->
       predict_mood L ms normal req
       = Error500 (BroadcastError (length p1) (length p2))) /\
    (length p1 = 4%nat -> length p2 = 4%nat -> ~ (-4 <= pred1 < 4)%Z ->
       predict_mood L ms normal req = Error500 (IndexError pred1 4)) /\
    (length p1 = 4%nat -> length p2 = 4%nat ->
       (-4 <= pred1 < 4)%Z -> ~ (-4 <= pred2 < 4)%Z ->
       predict_mood L ms normal req = Error500 (IndexError pred2 4)).
Proof.
  intros Ht Hf Hs1 Hs2 Hp1 Hp2 Hq1 Hq2.
  eexists. split; [apply load_models_present|].
  assert (Hrun : predict_mood L
                   {| model1 := m1; scaler1 := s1; model2 := m2; scaler2 := s2 |}
                   normal req
                 = match ensemble pred1 pred2 p1 p2 with
                   | Ret d => Ok200 d
                   | Raise e => Error500 e
                   end).
  { unfold predict_mood, infer. rewrite Ht. cbn [negb model1 scaler1 model2 scaler2].
    rewrite Hf. cbn [mbind res_bind]. rewrite Hs1. cbn [mbind res_bind].
    rewrite Hs2. cbn [mbind res_bind]. rewrite Hp1. cbn [mbind res_bind].
    rewrite Hp2. cbn [mbind res_bind]. rewrite Hq1. cbn [mbind res_bind].
    rewrite Hq2. cbn [mbind res_bind]. reflexivity. }
  rewrite Hrun. split; [|split].
  - intros Hne Hl1 Hl2. unfold ensemble.
    rewrite np_add_mismatch by (unfold np_scale; rewrite !length_map; assumption).
    unfold np_scale. rewrite !length_map. reflexivity.
  - intros H1 H2 Hbad.
    destruct (ensemble_four pred1 pred2 p1 p2 H1 H2)
      as (k & s & pr & se & _ & _ & _ & _ & _ & _ & _ & He).
    rewrite He, (py_index_out_of_range MOOD_NAMES pred1) by exact Hbad.
    reflexivity.
  - intros H1 H2 Hok Hbad.
    destruct (ensemble_four pred1 pred2 p1 p2 H1 H2)
      as (k & s & pr & se & _ & _ & _ & _ & _ & _ & _ & He).
    destruct (py_index_moods_valid pred1 Hok) as [n1 Hn1].
    rewrite He, Hn1. cbn [mbind res_bind].
    rewrite (py_index_out_of_range MOOD_NAMES pred2) by exact Hbad. reflexivity.
Qed.

Lemma class_count_mismatch_is_per_request_witness :
  exists ms,
    load_models (stub_files five_class four_class) = Ret ms /\
    predict_mood reflib ms (fun _ => 0) plain_request
    = Error500 (BroadcastError 5 4).
Proof.
  destruct (class_count_mismatch_is_per_request reflib five_class four_class
              identity_scaler identity_scaler (fun _ => 0) plain_request
              _ _ _ 4 0 [0.1; 0.1; 0.1; 0.1; 0.6] [0.5; 0.2; 0.2; 0.1]
              eq_refl eq_refl eq_refl eq_refl eq_refl eq_refl eq_refl eq_refl)
    as (ms & Hload & Hbroadcast & _).
  exists ms. split; [exact Hload|].
  apply Hbroadcast; simpl; lia.
Defined.

(** C5, as stated, fails: with a five-class classifier the artifacts
    load, and the mismatch is the error of a request (status 500). *)
Lemma class_count_mismatch_not_load_time :
  load_models (stub_files five_class four_class)
  = Ret (stub_models five_class four_class) /\
  predict_mood reflib (stub_models five_class four_class) (fun _ => 0) plain_request
  = Error500 (BroadcastError 5 4) /\
  load_models (stub_files five_class five_class)
  = Ret (stub_models five_class five_class) /\
  predict_mood reflib (stub_models five_class five_class) (fun _ => 0) plain_request
  = Error500 (IndexError 4 4).
Proof.
  split; [reflexivity|]. split; [vm_compute; reflexivity|].
  split; [reflexivity|]. vm_compute; reflexivity.
Qed.

(** ** Catalog ranges *)

(** C9.  [MOOD_NAMES] is Happy, Angry, Sad, Relaxed; every name in
    it has its own position as index and a catalog range; the ranges are
    Happy (1, 20), Angry (61, 80), Sad (21, 40), Relaxed (41, 60);
    [song_ranges] has exactly the keys 0 to 3; and for each of the four
    names [recommend_songs] answers the catalog rows within its range. *)
Theorem mood_ranges_total :
  MOOD_NAMES = ["Happy"; "Angry"; "Sad"; "Relaxed"]%string /\
  (forall i mood, MOOD_NAMES !! i = Some mood ->
     list_index mood MOOD_NAMES = Some i /\ is_Some (mood_range mood)) /\
  mood_range "Happy" = Some (1, 20)%Z /\
  mood_range "Angry" = Some (61, 80)%Z /\
  mood_range "Sad" = Some (21, 40)%Z /\
  mood_range "Relaxed" = Some (41, 60)%Z /\
  (forall i, is_Some (song_ranges !! i) <-> (i < 4)%nat) /\
  (forall songs_df mood, In mood MOOD_NAMES ->
     exists lo hi,
       mood_range mood = Some (lo, hi) /\
       recommend_songs songs_df (Some mood)
       = Recommendations mood
           (filter (fun s => between lo hi (song_index s)) songs_df)).
Proof.
  split; [reflexivity|]. split.
  { intros i mood H.
    destruct i as [|[|[|[|i]]]]; simpl in H; try discriminate;
      injection H as <-; split; try reflexivity; eexists; reflexivity. }
  do 4 (split; [reflexivity|]). split.
  { intros i. split.
    - intros [r Hr]. destruct (decide (i < 4)%nat) as [|Hge]; [assumption|].
      unfold song_ranges in Hr.
      rewrite !lookup_insert_ne in Hr by lia. rewrite lookup_empty in Hr.
      discriminate.
    - intros Hi. destruct i as [|[|[|[|i]]]]; try lia; eexists; reflexivity. }
  intros songs_df mood Hin. simpl in Hin.
  destruct Hin as [<-|[<-|[<-|[<-|[]]]]]; eexists _, _; split; reflexivity.
Qed.

Lemma mood_ranges_total_witness :
  exists lo hi,
    mood_range "Sad" = Some (lo, hi) /\
    recommend_songs
      [ {| song_index := 20; title := "a"; artists := "x" |};
        {| song_index := 21; title := "b"; artists := "y" |};
        {| song_index := 40; title := "c"; artists := "z" |};
        {| song_index := 41; title := "d"; artists := "w" |} ]
      (Some "Sad"%string)
    = Recommendations "Sad"
        (filter (fun s => between lo hi (song_index s))
           [ {| song_index := 20; title := "a"; artists := "x" |};
             {| song_index := 21; title := "b"; artists := "y" |};
             {| song_index := 40; title := "c"; artists := "z" |};
             {| song_index := 41; title := "d"; artists := "w" |} ]).
Proof.
  apply (proj2 (proj2 (proj2 (proj2 (proj2 (proj2 (proj2 mood_ranges_total))))))).
  simpl. auto.
Defined.

(** * Further properties of the code *)

(** ** The shape of the feature vector *)

Ltac bind_inv H x E :=
  match type of H with
  | mbind _ ?m = Ret _ =>
      destruct m as [x|?] eqn:E; [cbn [mbind res_bind] in H | discriminate]
  end.

Lemma axis_blocks_length (L : numlib) (arr : ndarray) (blocks : list (list fval)) :
  mapM (fun axis => axis_data ← column arr axis; stat_features L axis_data) (seq 0 3)
  = Ret blocks ->
  length (concat blocks) = 24%nat.
Proof.
  cbn [seq mapM]. intros H.
  bind_inv H b0 E0. bind_inv H bs0 E1. bind_inv E1 b1 E2. bind_inv E1 bs1 E3.
  bind_inv E3 b2 E4. cbn [mbind res_bind mret res_ret] in E3.
  injection E3 as <-. injection E1 as <-. injection H as <-.
  bind_inv E0 d0 D0. bind_inv E2 d1 D1. bind_inv E4 d2 D2.
  apply stat_features_length in E0, E2, E4.
  cbn [concat]. rewrite !length_app, E0, E2, E4. reflexivity.
Qed.

(** X1.  Whatever the heart-rate sequence and the accelerometer
    argument, a vector returned by [extract_features] has exactly 32
    entries. *)
Theorem extract_features_length
  (L : numlib) (hr : list Q) (acc : option (list acc_item)) (v : list fval) :
  extract_features L hr acc = Ret v -> length v = 32%nat.
Proof.
  unfold extract_features. intros H.
  bind_inv H hrf Ehr. apply stat_features_length in Ehr.
  bind_inv H accf Eacc. injection H as <-.
  rewrite length_app, Ehr.
  destruct acc as [[|first items]|].
  - injection Eacc as <-. reflexivity.
  - bind_inv Eacc arr Earr. bind_inv Eacc blocks Eb. injection Eacc as <-.
    now rewrite (axis_blocks_length _ _ _ Eb).
  - injection Eacc as <-. reflexivity.
Qed.

Lemma extract_features_length_witness :
  exists v, extract_features reflib [70; 72; 68; 75]
              (Some (acc_nested [(1, 2, 3); (4, 5, 6)])) = Ret v /\
            length v = 32%nat.
Proof.
  destruct (nested_accelerometer_ok reflib [70; 72; 68; 75] [(1, 2, 3); (4, 5, 6)])
    as (v & Hv & _); [discriminate | discriminate |].
  exists v. split; [exact Hv|].
  exact (extract_features_length reflib _ _ v Hv).
Defined.

(** ** The layout of the accelerometer blocks *)

Lemma column_triples (ts : list (Q * Q * Q)) (axis : nat) :
  (axis < 3)%nat ->
  column (Arr2 3 (map triple_row ts)) axis
  = Ret (map (fun t => nth axis (triple_row t) 0) ts).
Proof.
  intros H. unfold column.
  destruct (axis <? 3)%nat eqn:E; [|apply Nat.ltb_ge in E; lia].
  now rewrite map_map.
Qed.

(** X2.  For non-empty heart-rate data and a non-empty sequence of
    accelerometer triples, the vector is the heart-rate block followed
    by the blocks of the x, the y and the z values, each the eight
    statistics of its own sequence. *)
Theorem accelerometer_block_layout
  (L : numlib) (hr : list Q) (ts : list (Q * Q * Q)) :
  hr <> [] -> ts <> [] ->
  exists bh bx by_ bz,
    stat_features L hr = Ret bh /\
    stat_features L (map (fun t => fst (fst t)) ts) = Ret bx /\
    stat_features L (map (fun t => snd (fst t)) ts) = Ret by_ /\
    stat_features L (map (fun t => snd t) ts) = Ret bz /\
    extract_features L hr (Some (acc_nested ts)) = Ret (bh ++ bx ++ by_ ++ bz).
Proof.
  intros Hhr Hts.
  destruct hr as [|h hr]; [congruence|]. destruct ts as [|t ts]; [congruence|].
  do 4 eexists.
  split; [apply stat_features_cons|].
  split; [apply stat_features_cons|].
  split; [apply stat_features_cons|].
  split; [apply stat_features_cons|].
  unfold extract_features. rewrite stat_features_cons.
  pose proof (np_array_nested t ts) as Hn.
  pose proof (column_triples (t :: ts) 0 ltac:(lia)) as C0.
  pose proof (column_triples (t :: ts) 1 ltac:(lia)) as C1.
  pose proof (column_triples (t :: ts) 2 ltac:(lia)) as C2.
  destruct t as [[x y] z].
  change (acc_nested ((x, y, z) :: ts)) with (AccRow [x; y; z] :: acc_nested ts) in *.
  cbn [mbind res_bind is_triple length Nat.eqb].
  rewrite Hn. cbn [mbind res_bind mapM seq].
  rewrite C0, C1, C2. cbn [mbind res_bind map triple_row nth fst snd].
  rewrite !stat_features_cons. cbn [mbind res_bind mret res_ret concat].
  rewrite app_nil_r. reflexivity.
Qed.

Lemma accelerometer_block_layout_witness :
  exists bh bx by_ bz,
    stat_features reflib [70; 72; 68; 75] = Ret bh /\
    stat_features reflib (map (fun t => fst (fst t)) [(1, 2, 3); (4, 5, 6)]) = Ret bx /\
    stat_features reflib (map (fun t => snd (fst t)) [(1, 2, 3); (4, 5, 6)]) = Ret by_ /\
    stat_features reflib (map (fun t => snd t) [(1, 2, 3); (4, 5, 6)]) = Ret bz /\
    extract_features reflib [70; 72; 68; 75] (Some (acc_nested [(1, 2, 3); (4, 5, 6)]))
    = Ret (bh ++ bx ++ by_ ++ bz).
Proof.
  apply (accelerometer_block_layout reflib [70; 72; 68; 75] [(1, 2, 3); (4, 5, 6)]);
    discriminate.
Defined.

(** ** Nested input whose rows are not triples *)





(** ** Ragged and mixed accelerometer input *)

Lemma all_nums_Some (items : list acc_item) (xs : list Q) :
  all_nums items = Some xs -> forall r, ~ In (AccRow r) items.
Proof.
  revert xs. induction items as [|[x|r'] items IH]; intros xs H r Hin.
  - destruct Hin.
  - simpl in H. destruct (all_nums items) as [ys|] eqn:E; [|discriminate].
    destruct Hin as [Hin|Hin]; [discriminate|]. exact (IH ys eq_refl r Hin).
  - discriminate.
Qed.

Lemma all_rows_Some (items : list acc_item) (rows : list (list Q)) :
  all_rows items = Some rows -> items = map AccRow rows.
Proof.
  revert rows. induction items as [|[x|r'] items IH]; intros rows H.
  - injection H as <-. reflexivity.
  - discriminate.
  - simpl in H. destruct (all_rows items) as [rs|] eqn:E; [|discriminate].
    injection H as <-. simpl. now rewrite (IH rs eq_refl).
Qed.

Lemma np_array_inhomogeneous (items : list acc_item) :
  (exists x r, In (AccNum x) items /\ In (AccRow r) items) \/
  (exists r1 r2, In (AccRow r1) items /\ In (AccRow r2) items /\
                 length r1 <> length r2) ->
  np_array items = Raise InhomogeneousShape.
Proof.
  intros H. unfold np_array.
  destruct (all_nums items) as [xs|] eqn:En.
  { exfalso. destruct H as [(x & r & _ & Hr) | (r1 & r2 & Hr & _)];
      exact (all_nums_Some _ _ En _ Hr). }
  destruct (all_rows items) as [[|r rows]|] eqn:Er; try reflexivity.
  apply all_rows_Some in Er. subst items.
  destruct (forallb _ rows) eqn:Ef; [|reflexivity].
  exfalso. rewrite forallb_forall in Ef.
  assert (Hlen : forall r', In (AccRow r') (map AccRow (r :: rows)) ->
                            length r' = length r).
  { intros r' Hin. apply in_map_iff in Hin. destruct Hin as (r'' & [= ->] & Hin).
    destruct Hin as [->|Hin]; [reflexivity|]. apply Nat.eqb_eq, Ef, Hin. }
  destruct H as [(x & r' & Hx & _) | (r1 & r2 & H1 & H2 & Hne)].
  - apply in_map_iff in Hx. destruct Hx as (? & ? & _). discriminate.
  - apply Hlen in H1, H2. congruence.
Qed.

(** X4.  An accelerometer array that mixes numbers and rows, or has
    two rows of different lengths, makes [extract_features] raise
    numpy's inhomogeneous-shape error on any non-empty heart-rate
    sequence; the endpoint answers it with status 500. *)
Theorem ragged_accelerometer_raises
  (L : numlib) (ms : models) (normal : nat -> Q) (req : request)
  (items : list acc_item) :
  accelerometer req = Some items ->
  (exists x r, In (AccNum x) items /\ In (AccRow r) items) \/
  (exists r1 r2, In (AccRow r1) items /\ In (AccRow r2) items /\
                 length r1 <> length r2) ->
  (forall hr, hr <> [] ->
     extract_features L hr (Some items) = Raise InhomogeneousShape) /\
  (truthy (heart_rate req) = true ->
     predict_mood L ms normal req = Error500 InhomogeneousShape).
Proof.
  intros Hacc Hbad.
  assert (H1 : forall hr, hr <> [] ->
             extract_features L hr (Some items) = Raise InhomogeneousShape).
  { intros hr Hhr. destruct hr as [|h hr]; [congruence|].
    pose proof (np_array_inhomogeneous items Hbad) as Hn.
    unfold extract_features. rewrite stat_features_cons. cbn [mbind res_bind].
    destruct items as [|first items'].
    - exfalso. destruct Hbad as [(? & ? & [] & _) | (? & ? & [] & _)].
    - rewrite Hn. destruct (is_triple first); reflexivity. }
  split; [exact H1|].
  intros Ht. unfold predict_mood, infer. rewrite Ht, Hacc. cbn [negb].
  rewrite H1 by now apply hr_sequence_nonempty. reflexivity.
Qed.

Lemma ragged_accelerometer_raises_witness :
  predict_mood reflib happy_models (fun _ => 0)
    {| heart_rate := HrList [70; 72; 68; 75];
       accelerometer := Some [AccRow [1; 2; 3]; AccRow [4; 5]] |}
  = Error500 InhomogeneousShape.
Proof.
  apply (ragged_accelerometer_raises reflib happy_models (fun _ => 0)
           {| heart_rate := HrList [70; 72; 68; 75];
              accelerometer := Some [AccRow [1; 2; 3]; AccRow [4; 5]] |}
           [AccRow [1; 2; 3]; AccRow [4; 5]]).
  - reflexivity.
  - right. exists [1; 2; 3], [4; 5]. simpl. repeat split; auto.
  - reflexivity.
Defined.

(** ** The histogram and the entropy *)

Lemma fold_plus_acc (l : list Q) (a : Q) : fold_left Qplus l a == a + np_sum l.
Proof.
  unfold np_sum. revert a. induction l as [|x l IH]; intros a; simpl.
  - ring.
  - rewrite (IH (a + x)), (IH (0 + x)). ring.
Qed.

Lemma np_sum_cons (x : Q) (l : list Q) : np_sum (x :: l) == x + np_sum l.
Proof.
  unfold np_sum at 1. simpl. rewrite fold_plus_acc. ring.
Qed.


Lemma fold_min_le (xs : list Q) :
  forall x, fold_left Qmin xs x <= x /\
            forall y, In y xs -> fold_left Qmin xs x <= y.
Proof.
  induction xs as [|a xs IH]; intros x; simpl.
  - split; [apply Qle_refl | intros y []].
  - destruct (IH (Qmin x a)) as [H1 H2]. split.
    + eapply Qle_trans; [exact H1 | apply Q.le_min_l].
    + intros y [<-|Hy]; [|now apply H2].
      eapply Qle_trans; [exact H1 | apply Q.le_min_r].
Qed.

Lemma fold_max_ge (xs : list Q) :
  forall x, x <= fold_left Qmax xs x /\
            forall y, In y xs -> y <= fold_left Qmax xs x.
Proof.
  induction xs as [|a xs IH]; intros x; simpl.
  - split; [apply Qle_refl | intros y []].
  - destruct (IH (Qmax x a)) as [H1 H2]. split.
    + eapply Qle_trans; [apply Q.le_max_l | exact H1].
    + intros y [<-|Hy]; [|now apply H2].
      eapply Qle_trans; [apply Q.le_max_r | exact H1].
Qed.

Lemma hist_range_spec (x : Q) (xs : list Q) :
  fst (hist_range (x :: xs)) < snd (hist_range (x :: xs)) /\
  forall y, In y (x :: xs) ->
            fst (hist_range (x :: xs)) <= y <= snd (hist_range (x :: xs)).
Proof.
  unfold hist_range.
  destruct (fold_min_le xs x) as [Hmin Hmin'].
  destruct (fold_max_ge xs x) as [Hmax Hmax'].
  set (lo := fold_left Qmin xs x) in *. set (hi := fold_left Qmax xs x) in *.
  assert (Hb : forall y, In y (x :: xs) -> lo <= y <= hi).
  { intros y [<-|Hy]; split; auto. }
  destruct (Qeq_bool lo hi) eqn:E; cbn [fst snd].
  - apply Qeq_bool_iff in E. split; [lra|].
    intros y Hy. destruct (Hb y Hy). lra.
  - split; [|exact Hb].
    assert (lo <= hi) by (eapply Qle_trans; eauto).
    destruct (Qlt_le_dec lo hi) as [|Hge]; [assumption|].
    exfalso. assert (Heq : lo == hi) by (apply Qle_antisym; assumption).
    apply Qeq_bool_iff in Heq. congruence.
Qed.

Lemma bin_index_range (r : Q * Q) (x : Q) :
  fst r < snd r -> fst r <= x <= snd r -> (0 <= bin_index r x < 10)%Z.
Proof.
  intros Hr [Hlo Hhi]. unfold bin_index.
  change (of_nat n_bins) with 10. change (Z.of_nat n_bins) with 10%Z.
  set (q := (x - fst r) / (snd r - fst r)).
  assert (H0 : 0 <= q) by (apply Qle_shift_div_l; lra).
  assert (H1 : q <= 1) by (apply Qle_shift_div_r; lra).
  assert (F0 : (Qfloor 0 <= Qfloor (q * 10))%Z) by (apply Qfloor_resp_le; lra).
  assert (F1 : (Qfloor (q * 10) <= Qfloor 10)%Z) by (apply Qfloor_resp_le; lra).
  change (Qfloor 0) with 0%Z in F0. change (Qfloor 10) with 10%Z in F1.
  destruct (Qfloor (q * 10) =? 10)%Z eqn:E.
  - apply Z.eqb_eq in E. lia.
  - apply Z.eqb_neq in E. lia.
Qed.

Lemma fold_add_acc (l : list nat) (a : nat) :
  fold_left Nat.add l a = (a + sum_nat l)%nat.
Proof.
  unfold sum_nat. revert a. induction l as [|x l IH]; intros a; simpl; [lia|].
  rewrite (IH (a + x)%nat), (IH x). lia.
Qed.

Lemma sum_nat_cons (x : nat) (l : list nat) : sum_nat (x :: l) = (x + sum_nat l)%nat.
Proof. unfold sum_nat at 1. simpl. now rewrite fold_add_acc. Qed.

Lemma sum_nat_app (l1 l2 : list nat) :
  sum_nat (l1 ++ l2) = (sum_nat l1 + sum_nat l2)%nat.
Proof.
  induction l1 as [|x l1 IH]; [reflexivity|].
  simpl. rewrite !sum_nat_cons, IH. lia.
Qed.

Lemma sum_nat_map_add {A} (g h : A -> nat) (l : list A) :
  sum_nat (map (fun b => (g b + h b)%nat) l)
  = (sum_nat (map g l) + sum_nat (map h l))%nat.
Proof.
  induction l as [|b l IH]; [reflexivity|].
  simpl. rewrite !sum_nat_cons, IH. lia.
Qed.

Lemma sum_indicator (z : Z) (n : nat) :
  sum_nat (map (fun b => if (z =? Z.of_nat b)%Z then 1%nat else 0%nat) (seq 0 n))
  = if ((0 <=? z) && (z <? Z.of_nat n))%Z then 1%nat else 0%nat.
Proof.
  induction n as [|n IH].
  - cbn [seq map]. change (Z.of_nat 0) with 0%Z.
    destruct (0 <=? z)%Z eqn:E; [|reflexivity].
    destruct (z <? 0)%Z eqn:E'; [|reflexivity].
    apply Z.leb_le in E. apply Z.ltb_lt in E'. lia.
  - rewrite seq_S, map_app, sum_nat_app, IH. cbn [map Nat.add].
    unfold sum_nat at 1. cbn [fold_left Nat.add].
    destruct (0 <=? z)%Z eqn:E0, (z <? Z.of_nat n)%Z eqn:E1,
             (z =? Z.of_nat n)%Z eqn:E2, (z <? Z.of_nat (S n))%Z eqn:E3;
      cbn [andb]; try reflexivity;
      try apply Z.leb_le in E0; try apply Z.leb_gt in E0;
      try apply Z.ltb_lt in E1; try apply Z.ltb_ge in E1;
      try apply Z.eqb_eq in E2; try apply Z.eqb_neq in E2;
      try apply Z.ltb_lt in E3; try apply Z.ltb_ge in E3; lia.
Qed.

Lemma count_bins (f : Q -> Z) (n : nat) (xs : list Q) :
  (forall x, In x xs -> (0 <= f x < Z.of_nat n)%Z) ->
  sum_nat (map (fun b => length (filter (fun x => (f x =? Z.of_nat b)%Z) xs))
               (seq 0 n))
  = length xs.
Proof.
  induction xs as [|x xs IH]; intros H.
  - assert (Hz : forall l : list nat, sum_nat (map (fun _ => 0%nat) l) = 0%nat).
    { induction l as [|b l IHl]; [reflexivity|].
      cbn [map]. rewrite sum_nat_cons, IHl. reflexivity. }
    exact (Hz (seq 0 n)).
  - rewrite (map_ext_in _
      (fun b => ((if (f x =? Z.of_nat b)%Z then 1 else 0)
                 + length (filter (fun x => (f x =? Z.of_nat b)%Z) xs))%nat)).
    + rewrite sum_nat_map_add, sum_indicator, IH by (intros y Hy; apply H; now right).
      specialize (H x (or_introl eq_refl)).
      replace ((0 <=? f x)%Z && (f x <? Z.of_nat n)%Z) with true; [reflexivity|].
      symmetry. apply andb_true_iff. split; [apply Z.leb_le | apply Z.ltb_lt]; lia.
    + intros b _. rewrite filter_cons.
      destruct (f x =? Z.of_nat b)%Z eqn:E; case_decide as Hd;
        simpl in Hd; try reflexivity; try contradiction.
Qed.

Lemma histogram_counts_cover_aux (x : Q) (xs : list Q) :
  length (bin_counts (x :: xs)) = 10%nat /\
  sum_nat (bin_counts (x :: xs)) = length (x :: xs).
Proof.
  split; [reflexivity|].
  destruct (hist_range_spec x xs) as [Hr Hin].
  apply (count_bins (bin_index (hist_range (x :: xs))) n_bins (x :: xs)).
  intros y Hy. apply bin_index_range; auto.
Qed.

(** X5.  On a non-empty sample the histogram has 10 bins and every
    value falls in exactly one of them: the bin counts add up to the
    number of values. *)
Theorem histogram_counts_cover (xs : list Q) :
  xs <> [] ->
  length (bin_counts xs) = 10%nat /\
  fold_left Nat.add (bin_counts xs) 0%nat = length xs.
Proof.
  intros Hne. destruct xs as [|x xs]; [congruence|].
  exact (histogram_counts_cover_aux x xs).
Qed.

Lemma histogram_counts_cover_witness :
  length (bin_counts [70; 72; 68; 75; 71]) = 10%nat /\
  fold_left Nat.add (bin_counts [70; 72; 68; 75; 71]) 0%nat
  = length [70; 72; 68; 75; 71].
Proof.
  apply (histogram_counts_cover [70; 72; 68; 75; 71]). discriminate.
Defined.

Lemma bin_widths (r : Q * Q) :
  Forall (fun w => w == (snd r - fst r) / 10) (np_diff (bin_edges r)) /\
  length (np_diff (bin_edges r)) = 10%nat.
Proof.
  split; [|reflexivity].
  unfold bin_edges. change (of_nat n_bins) with 10.
  cbn [n_bins seq map np_diff].
  generalize ((snd r - fst r) / 10). intros s.
  repeat (apply List.Forall_cons;
          [unfold of_nat; cbn [Z.of_nat Pos.of_succ_nat Pos.succ inject_Z]; ring|]).
  apply List.Forall_nil.
Qed.

Lemma bin_widths_pos (x : Q) (xs : list Q) :
  Forall (fun w => 0 < w) (np_diff (bin_edges (hist_range (x :: xs)))).
Proof.
  destruct (hist_range_spec x xs) as [Hr _].
  destruct (bin_widths (hist_range (x :: xs))) as [Hw _].
  eapply Forall_impl; [exact Hw|]. cbv beta. intros w ->.
  apply Qlt_shift_div_l; lra.
Qed.

Lemma of_nat_add (a b : nat) : of_nat (a + b) == of_nat a + of_nat b.
Proof. unfold of_nat. now rewrite Nat2Z.inj_add, inject_Z_plus. Qed.


Lemma of_nat_pos (a : nat) : (0 < a)%nat -> 0 < of_nat a.
Proof. intros H. unfold of_nat, Qlt. simpl. lia. Qed.

Lemma density_integral (n : list nat) (db : list Q) (T : Q) :
  length n = length db ->
  Forall (fun w => 0 < w) db -> 0 < T ->
  np_sum (zip_with Qmult
            (map (fun p => of_nat (fst p) / snd p / T) (combine n db)) db)
  == of_nat (sum_nat n) / T.
Proof.
  intros Hlen Hdb HT. revert db Hlen Hdb.
  induction n as [|c n IH]; intros [|w db] Hlen Hdb; try discriminate.
  - unfold np_sum, sum_nat, of_nat. simpl. field. lra.
  - inversion Hdb as [|? ? Hw Hdb']; subst.
    cbn [combine map zip_with fst snd].
    rewrite np_sum_cons, IH by (auto; simpl in Hlen; lia).
    rewrite sum_nat_cons, of_nat_add. field. split; lra.
Qed.

(** X6.  On a non-empty sample the density histogram integrates to
    1: the sum over the bins of density times bin width is 1; every bin
    width is positive. *)
Theorem histogram_density_integrates (xs : list Q) :
  xs <> [] ->
  Forall (fun w => 0 < w) (np_diff (bin_edges (hist_range xs))) /\
  np_sum (zip_with Qmult (histogram_density xs)
                   (np_diff (bin_edges (hist_range xs)))) == 1.
Proof.
  intros Hne. destruct xs as [|x xs]; [congruence|].
  pose proof (bin_widths_pos x xs) as Hw. split; [exact Hw|].
  destruct (histogram_counts_cover_aux x xs) as [Hl Hs].
  unfold histogram_density.
  fold (sum_nat (bin_counts (x :: xs))).
  assert (HT : 0 < of_nat (sum_nat (bin_counts (x :: xs)))).
  { rewrite Hs. apply of_nat_pos. simpl. lia. }
  rewrite density_integral; [field; lra | | exact Hw | exact HT].
  rewrite Hl. symmetry. apply bin_widths.
Qed.

Lemma histogram_density_integrates_witness :
  Forall (fun w => 0 < w) (np_diff (bin_edges (hist_range [70; 72; 68; 75; 71]))) /\
  np_sum (zip_with Qmult (histogram_density [70; 72; 68; 75; 71])
                   (np_diff (bin_edges (hist_range [70; 72; 68; 75; 71])))) == 1.
Proof.
  apply (histogram_density_integrates [70; 72; 68; 75; 71]). discriminate.
Defined.







(** ** The statistics of a block *)






(** ** The synthetic heart-rate sequence *)

Lemma nth_map_seq (f : nat -> Q) (n i : nat) :
  (i < n)%nat -> nth i (map f (seq 0 n)) 0 = f i.
Proof.
  intros Hi. rewrite (nth_indep _ 0 (f 0%nat)) by (rewrite length_map, length_seq; exact Hi).
  rewrite map_nth, seq_nth by exact Hi. reflexivity.
Qed.

(** X9.  For a scalar heart-rate reading [x] the synthesised sequence
    has 30 values, each within [x - 5] and [x + 5]; a draw [z] with
    [-5/2 <= z <= 5/2] is not clipped and gives [x + 2 * z]. *)
Theorem synthetic_sequence_bounds (normal : nat -> Q) (x : Q) :
  length (hr_sequence normal (HrNumber x)) = 30%nat /\
  Forall (fun v => x - 5 <= v <= x + 5) (hr_sequence normal (HrNumber x)) /\
  (forall i, (i < 30)%nat -> - (5 # 2) <= normal i <= 5 # 2 ->
             nth i (hr_sequence normal (HrNumber x)) 0 == x + 2 * normal i).
Proof.
  cbn [hr_sequence]. unfold np_clip, random_normal. split; [|split].
  - now rewrite !length_map, length_seq.
  - apply List.Forall_forall. intros v Hv.
    apply in_map_iff in Hv. destruct Hv as (w & <- & _). split.
    + apply Q.min_glb; [apply Q.le_max_r | lra].
    + apply Q.le_min_r.
  - intros i Hi Hz. rewrite map_map, nth_map_seq by exact Hi.
    rewrite Q.max_l by lra. apply Q.min_l. lra.
Qed.

Lemma synthetic_sequence_bounds_witness :
  nth 3 (hr_sequence (fun i => of_nat i / 2) (HrNumber 70)) 0
  == 70 + 2 * (of_nat 3 / 2).
Proof.
  apply (proj2 (proj2 (synthetic_sequence_bounds (fun i => of_nat i / 2) 70))).
  - lia.
  - vm_compute. split; discriminate.
Defined.

(** ** Ranking the combined probabilities *)

Lemma argsort_top_two (a : list Q) (order : list nat) :
  is_argsort a order -> (2 <= length a)%nat ->
  let s := nth (length a - 2) order 0%nat in
  let t := nth (length a - 1) order 0%nat in
  (s < length a)%nat /\ (t < length a)%nat /\ s <> t /\
  (forall j, (j < length a)%nat -> nth j a 0 <= nth t a 0) /\
  (forall j, (j < length a)%nat -> j <> t -> nth j a 0 <= nth s a 0).
Proof.
  intros [Hperm Hsorted] Hn s t.
  pose proof (Permutation_length Hperm) as Hlen. rewrite length_seq in Hlen.
  assert (Hnd : List.NoDup order)
    by (apply (Permutation_NoDup (Permutation_sym Hperm)), seq_NoDup).
  assert (Hin : forall i, (i < length a)%nat -> (nth i order 0 < length a)%nat).
  { intros i Hi.
    assert (Hi' : In (nth i order 0%nat) order) by (apply nth_In; lia).
    apply (Permutation_in _ Hperm) in Hi'. apply in_seq in Hi'. lia. }
  assert (Hpos : forall j, (j < length a)%nat ->
                           exists i, (i < length a)%nat /\ nth i order 0%nat = j).
  { intros j Hj.
    assert (Hj' : In j order).
    { apply (Permutation_in _ (Permutation_sym Hperm)), in_seq. lia. }
    destruct (In_nth _ _ 0%nat Hj') as (i & Hi & Hnth). exists i. split; [lia|auto]. }
  split; [apply Hin; lia|]. split; [apply Hin; lia|]. split; [|split].
  - unfold s, t. intros Heq.
    rewrite NoDup_nth in Hnd. apply Hnd in Heq; lia.
  - intros j Hj. destruct (Hpos j Hj) as (i & Hi & <-).
    unfold t. apply Hsorted. lia.
  - intros j Hj Hne. destruct (Hpos j Hj) as (i & Hi & <-).
    unfold s. apply Hsorted.
    assert (i <> length a - 1)%nat by (intros ->; apply Hne; reflexivity).
    lia.
Qed.

Lemma mood_names_injective (i j : nat) (m : string) :
  MOOD_NAMES !! i = Some m -> MOOD_NAMES !! j = Some m -> i = j.
Proof.
  intros Hi Hj.
  destruct i as [|[|[|[|i]]]]; try discriminate;
    destruct j as [|[|[|[|j]]]]; try discriminate;
    try reflexivity; simpl in Hi, Hj; congruence.
Qed.

Lemma secondary_is_runner_up_aux
  (pred1 pred2 : Z) (proba1 proba2 : list Q) (d : decision) :
  length proba1 = 4%nat -> length proba2 = 4%nat ->
  ensemble pred1 pred2 proba1 proba2 = Ret d ->
  exists s t,
    (s < 4)%nat /\ (t < 4)%nat /\ s <> t /\
    MOOD_NAMES !! s = Some (secondary_mood d) /\
    (forall j, (j < 4)%nat ->
       nth j (blend proba1 proba2) 0 <= nth t (blend proba1 proba2) 0) /\
    (forall j, (j < 4)%nat -> j <> t ->
       nth j (blend proba1 proba2) 0 <= nth s (blend proba1 proba2) 0).
Proof.
  intros H1 H2 Hd.
  destruct (ensemble_four_decision _ _ _ _ _ H1 H2 Hd)
    as (k & s & _ & Hs & _ & Hsec & _).
  assert (Hlen : length (blend proba1 proba2) = 4%nat)
    by (rewrite blend_length; congruence).
  pose proof (argsort_top_two _ _ (np_argsort_is_argsort (blend proba1 proba2))) as Ht.
  rewrite Hlen in Ht. specialize (Ht ltac:(lia)). cbv zeta in Ht.
  change (4 - 2)%nat with 2%nat in Ht. change (4 - 1)%nat with 3%nat in Ht.
  assert (Hs' : nth 2 (np_argsort (blend proba1 proba2)) 0%nat = s).
  { apply nth_lookup_Some with (d := 0%nat) in Hs. exact Hs. }
  rewrite Hs' in Ht.
  exists s, (nth 3 (np_argsort (blend proba1 proba2)) 0%nat).
  destruct Ht as (A & B & C & D & E). auto 10.
Qed.

(** X10.  In every decision from two vectors of four probabilities
    the secondary mood is a runner-up: there is a class [t] of largest
    combined probability such that the secondary mood is another class,
    whose combined probability is the largest among all classes other
    than [t]. *)
Theorem secondary_is_runner_up
  (pred1 pred2 : Z) (proba1 proba2 : list Q) (d : decision) :
  length proba1 = 4%nat -> length proba2 = 4%nat ->
  ensemble pred1 pred2 proba1 proba2 = Ret d ->
  exists s t,
    (s < 4)%nat /\ (t < 4)%nat /\ s <> t /\
    MOOD_NAMES !! s = Some (secondary_mood d) /\
    (forall j, (j < 4)%nat ->
       nth j (blend proba1 proba2) 0 <= nth t (blend proba1 proba2) 0) /\
    (forall j, (j < 4)%nat -> j <> t ->
       nth j (blend proba1 proba2) 0 <= nth s (blend proba1 proba2) 0).
Proof. exact (secondary_is_runner_up_aux pred1 pred2 proba1 proba2 d). Qed.

Lemma secondary_is_runner_up_witness :
  exists s t,
    (s < 4)%nat /\ (t < 4)%nat /\ s <> t /\
    MOOD_NAMES !! s = Some "Sad"%string /\
    (forall j, (j < 4)%nat -> nth j stub_combined 0 <= nth t stub_combined 0) /\
    (forall j, (j < 4)%nat -> j <> t ->
       nth j stub_combined 0 <= nth s stub_combined 0).
Proof.
  exact (secondary_is_runner_up 0 0 [0.7; 0.1; 0.1; 0.1] [0.5; 0.2; 0.2; 0.1] _
           eq_refl eq_refl eq_refl).
Defined.

(** X11.  When one class has a combined probability strictly larger
    than every other, the secondary mood differs from the primary mood
    and its combined probability is strictly smaller. *)
Theorem unique_maximum_separates_moods
  (pred1 pred2 : Z) (proba1 proba2 : list Q) (d : decision) (k : nat) :
  length proba1 = 4%nat -> length proba2 = 4%nat ->
  ensemble pred1 pred2 proba1 proba2 = Ret d ->
  (k < 4)%nat ->
  (forall j, (j < 4)%nat -> j <> k ->
     nth j (blend proba1 proba2) 0 < nth k (blend proba1 proba2) 0) ->
  MOOD_NAMES !! k = Some (primary_mood d) /\
  secondary_mood d <> primary_mood d /\
  exists s, MOOD_NAMES !! s = Some (secondary_mood d) /\
            nth s (blend proba1 proba2) 0 < nth k (blend proba1 proba2) 0.
Proof.
  intros H1 H2 Hd Hk Huniq.
  destruct (secondary_is_runner_up_aux _ _ _ _ _ H1 H2 Hd)
    as (s & t & Hs & Ht & Hst & Hsec & Hmax & _).
  destruct (ensemble_four pred1 pred2 proba1 proba2 H1 H2)
    as (k' & s' & pr & se & Hk' & Hk4 & Hmax' & _ & _ & Hpr & _ & He).
  destruct (ensemble_four_decision _ _ _ _ _ H1 H2 Hd)
    as (k'' & s'' & Hk'' & _ & Hprim & _ & _).
  rewrite Hk' in Hk''. injection Hk'' as <-.
  assert (k' = k).
  { destruct (decide (k' = k)) as [|Hne]; [assumption|].
    pose proof (Huniq k' Hk4 Hne). pose proof (Hmax' k Hk). lra. }
  subst k'.
  assert (t = k).
  { destruct (decide (t = k)) as [|Hne]; [assumption|].
    pose proof (Huniq t Ht Hne). pose proof (Hmax k Hk). lra. }
  subst t.
  split; [exact Hprim|]. split.
  - intros Heq. rewrite Heq in Hsec.
    apply Hst. exact (mood_names_injective _ _ _ Hsec Hprim).
  - exists s. split; [exact Hsec|]. apply Huniq; assumption.
Qed.

Lemma unique_maximum_separates_moods_witness :
  MOOD_NAMES !! 0%nat = Some "Happy"%string /\
  "Sad"%string <> "Happy"%string /\
  exists s, MOOD_NAMES !! s = Some "Sad"%string /\
            nth s stub_combined 0 < nth 0 stub_combined 0.
Proof.
  apply (unique_maximum_separates_moods 0 0 [0.7; 0.1; 0.1; 0.1] [0.5; 0.2; 0.2; 0.1]
           _ 0%nat eq_refl eq_refl eq_refl); [lia|].
  intros j Hj Hne.
  destruct j as [|[|[|[|j]]]]; try lia; try congruence; reflexivity.
Defined.

(** ** Broadcasting and class indices *)

Lemma ensemble_combined (pred1 pred2 : Z) (p1 p2 c : list Q) :
  np_add (np_scale 0.6 p1) (np_scale 0.4 p2) = Ret c ->
  length c = 4%nat ->
  exists primary secondary,
    ensemble pred1 pred2 p1 p2 =
      (m1 ← py_index MOOD_NAMES pred1;
       m2 ← py_index MOOD_NAMES pred2;
       Ret {| primary_mood := primary;
              secondary_mood := secondary;
              model1_prediction := m1;
              model2_prediction := m2;
              confidence := combine MOOD_NAMES c |}).
Proof.
  intros Hc Hlen.
  destruct (np_argmax_spec c) as (k & Hk & Hk4 & _).
  { intros E. rewrite E in Hlen. discriminate. }
  rewrite Hlen in Hk4.
  destruct (lookup_lt_is_Some_2 (np_argsort c) 2) as [s Hs].
  { rewrite np_argsort_length. lia. }
  pose proof (argsort_member _ _ _ Hs) as Hs4. rewrite Hlen in Hs4.
  destruct (lookup_lt_is_Some_2 MOOD_NAMES k) as [primary Hp]; [simpl; lia|].
  destruct (lookup_lt_is_Some_2 MOOD_NAMES s) as [secondary Hsec]; [simpl; lia|].
  exists primary, secondary.
  unfold ensemble. rewrite Hc. cbn [mbind res_bind].
  rewrite Hk. cbn [mbind res_bind].
  rewrite (py_index_nat _ _ _ Hp). cbn [mbind res_bind].
  change (-2)%Z with (- Z.of_nat 2)%Z.
  rewrite (py_index_from_end (np_argsort c) 2 s);
    [| rewrite np_argsort_length; lia
     | rewrite np_argsort_length, Hlen; exact Hs].
  cbn [mbind res_bind].
  rewrite (py_index_nat _ _ _ Hsec). cbn [mbind res_bind].
  destruct c as [|c0 [|c1 [|c2 [|c3 [|? ?]]]]]; try discriminate.
  rewrite confidence_four. reflexivity.
Qed.

(** X12.  A classifier that returns a single probability is not
    rejected: against a vector of four, numpy broadcasts the single
    value, and the ensemble returns a decision whose four confidence
    values are [0.6 * x + 0.4 * q] over the four [q]. *)
Theorem single_probability_is_broadcast
  (pred1 pred2 : Z) (x : Q) (proba2 : list Q) :
  length proba2 = 4%nat ->
  (-4 <= pred1 < 4)%Z -> (-4 <= pred2 < 4)%Z ->
  exists d,
    ensemble pred1 pred2 [x] proba2 = Ret d /\
    confidence d = combine MOOD_NAMES (map (fun q => 0.6 * x + 0.4 * q) proba2).
Proof.
  intros H2 Hp1 Hp2.
  assert (Hadd : np_add (np_scale 0.6 [x]) (np_scale 0.4 proba2)
                 = Ret (map (fun q => 0.6 * x + 0.4 * q) proba2)).
  { destruct proba2 as [|q0 [|q1 [|q2 [|q3 [|? ?]]]]]; try discriminate.
    reflexivity. }
  destruct (ensemble_combined pred1 pred2 [x] proba2 _ Hadd) as (pr & se & He).
  { now rewrite length_map. }
  destruct (py_index_moods_valid pred1 Hp1) as [m1 Hm1].
  destruct (py_index_moods_valid pred2 Hp2) as [m2 Hm2].
  rewrite He, Hm1. cbn [mbind res_bind]. rewrite Hm2. cbn [mbind res_bind].
  eexists. split; reflexivity.
Qed.

Lemma single_probability_is_broadcast_witness :
  exists d,
    ensemble 0 0 [1] [0.5; 0.2; 0.2; 0.1] = Ret d /\
    confidence d
    = combine MOOD_NAMES (map (fun q => 0.6 * 1 + 0.4 * q) [0.5; 0.2; 0.2; 0.1]).
Proof.
  apply (single_probability_is_broadcast 0 0 1 [0.5; 0.2; 0.2; 0.1]);
    [reflexivity | lia | lia].
Defined.

Lemma predicted_class_name_aux
  (pred1 pred2 : Z) (proba1 proba2 : list Q) (d : decision) :
  length proba1 = 4%nat -> length proba2 = 4%nat ->
  ensemble pred1 pred2 proba1 proba2 = Ret d ->
  (-4 <= pred1 < 4)%Z /\ (-4 <= pred2 < 4)%Z /\
  MOOD_NAMES !! Z.to_nat (pred1 mod 4) = Some (model1_prediction d) /\
  MOOD_NAMES !! Z.to_nat (pred2 mod 4) = Some (model2_prediction d).
Proof.
  intros H1 H2 Hd.
  destruct (ensemble_four pred1 pred2 proba1 proba2 H1 H2)
    as (k & s & pr & se & _ & _ & _ & _ & _ & _ & _ & He).
  rewrite He in Hd.
  destruct (py_index MOOD_NAMES pred1) as [m1|e] eqn:E1; [|discriminate].
  cbn [mbind res_bind] in Hd.
  destruct (py_index MOOD_NAMES pred2) as [m2|e] eqn:E2; [|discriminate].
  cbn [mbind res_bind] in Hd. injection Hd as <-.
  apply py_index_Ret in E1, E2.
  destruct E1 as [R1 L1], E2 as [R2 L2]. cbn [length MOOD_NAMES] in *.
  change (Z.of_nat 4) with 4%Z in *.
  cbn [model1_prediction model2_prediction].
  repeat split; try lia.
  - replace (Z.to_nat (pred1 mod 4))
      with (Z.to_nat (if (pred1 <? 0)%Z then (pred1 + 4)%Z else pred1)); [exact L1|].
    f_equal. destruct (pred1 <? 0)%Z eqn:E.
    + apply Z.ltb_lt in E. rewrite <- (Z_mod_plus_full pred1 1 4).
      symmetry. apply Z.mod_small. lia.
    + apply Z.ltb_ge in E. symmetry. apply Z.mod_small. lia.
  - replace (Z.to_nat (pred2 mod 4))
      with (Z.to_nat (if (pred2 <? 0)%Z then (pred2 + 4)%Z else pred2)); [exact L2|].
    f_equal. destruct (pred2 <? 0)%Z eqn:E.
    + apply Z.ltb_lt in E. rewrite <- (Z_mod_plus_full pred2 1 4).
      symmetry. apply Z.mod_small. lia.
    + apply Z.ltb_ge in E. symmetry. apply Z.mod_small. lia.
Qed.

(** X13.  In every decision from two vectors of four probabilities,
    the name reported for a model's predicted class [p] is
    [MOOD_NAMES[p mod 4]]: a class 0..3 is reported under its own name,
    and a negative class -4..-1 is not rejected but reported under the
    name counted from the end. *)
Theorem predicted_class_name
  (pred1 pred2 : Z) (proba1 proba2 : list Q) (d : decision) :
  length proba1 = 4%nat -> length proba2 = 4%nat ->
  ensemble pred1 pred2 proba1 proba2 = Ret d ->
  (-4 <= pred1 < 4)%Z /\ (-4 <= pred2 < 4)%Z /\
  MOOD_NAMES !! Z.to_nat (pred1 mod 4) = Some (model1_prediction d) /\
  MOOD_NAMES !! Z.to_nat (pred2 mod 4) = Some (model2_prediction d).
Proof. exact (predicted_class_name_aux pred1 pred2 proba1 proba2 d). Qed.

Lemma predicted_class_name_witness :
  (-4 <= -1 < 4)%Z /\ (-4 <= 2 < 4)%Z /\
  MOOD_NAMES !! Z.to_nat (-1 mod 4) = Some "Relaxed"%string /\
  MOOD_NAMES !! Z.to_nat (2 mod 4) = Some "Sad"%string.
Proof.
  exact (predicted_class_name (-1) 2 [0.7; 0.1; 0.1; 0.1] [0.5; 0.2; 0.2; 0.1] _
           eq_refl eq_refl eq_refl).
Defined.

(** ** A whole request *)

(** X14.  A request with a truthy heart rate and no accelerometer
    always yields a feature vector of 32 entries; when, on that vector,
    both scalers and both classifiers answer, with four probabilities
    each and classes 0..3, the endpoint answers 200 with the blend as
    confidence map, the first largest class as primary mood and each
    model's class under its own name. *)
Theorem request_without_accelerometer_succeeds
  (L : numlib) (ms : models) (normal : nat -> Q) (req : request) :
  truthy (heart_rate req) = true ->
  accelerometer req = None ->
  exists f,
    extract_features L (hr_sequence normal (heart_rate req)) None = Ret f /\
    length f = 32%nat /\
    forall f1 f2 pred1 pred2 p1 p2,
      transform (scaler1 ms) f = Ret f1 -> transform (scaler2 ms) f = Ret f2 ->
      predict (model1 ms) f1 = Ret pred1 -> predict (model2 ms) f2 = Ret pred2 ->
      predict_proba (model1 ms) f1 = Ret p1 -> predict_proba (model2 ms) f2 = Ret p2 ->
      length p1 = 4%nat -> length p2 = 4%nat ->
      (0 <= pred1 < 4)%Z -> (0 <= pred2 < 4)%Z ->
      exists d k,
        predict_mood L ms normal req = Ok200 d /\
        confidence d = combine MOOD_NAMES (blend p1 p2) /\
        np_argmax (blend p1 p2) = Ret k /\
        MOOD_NAMES !! k = Some (primary_mood d) /\
        MOOD_NAMES !! Z.to_nat pred1 = Some (model1_prediction d) /\
        MOOD_NAMES !! Z.to_nat pred2 = Some (model2_prediction d).
Proof.
  intros Ht Hacc.
  pose proof (hr_sequence_nonempty normal _ Ht) as Hne.
  destruct (hr_sequence normal (heart_rate req)) as [|h hr] eqn:Ehr; [congruence|].
  eexists. split; [unfold extract_features; rewrite stat_features_cons; reflexivity|].
  split; [reflexivity|].
  intros f1 f2 pred1 pred2 p1 p2 Hs1 Hs2 Hp1 Hp2 Hq1 Hq2 Hl1 Hl2 Hr1 Hr2.
  destruct (ensemble_four_returns pred1 pred2 p1 p2 Hl1 Hl2) as [d Hd]; [lia | lia |].
  destruct (ensemble_four_decision _ _ _ _ _ Hl1 Hl2 Hd)
    as (k & s & Hk & _ & Hprim & _ & Hconf).
  destruct (predicted_class_name_aux _ _ _ _ _ Hl1 Hl2 Hd) as (_ & _ & Hm1 & Hm2).
  exists d, k. split.
  - unfold predict_mood, infer. rewrite Ht, Hacc, Ehr. cbn [negb].
    unfold extract_features. rewrite stat_features_cons. cbn [mbind res_bind app].
    cbn [mbind res_bind app] in Hs1, Hs2.
    rewrite Hs1. cbn [mbind res_bind]. rewrite Hs2. cbn [mbind res_bind].
    rewrite Hp1. cbn [mbind res_bind]. rewrite Hp2. cbn [mbind res_bind].
    rewrite Hq1. cbn [mbind res_bind]. rewrite Hq2. cbn [mbind res_bind].
    rewrite Hd. reflexivity.
  - repeat (split; [assumption|]).
    rewrite Z.mod_small in Hm1, Hm2 by lia. auto.
Qed.

Lemma request_without_accelerometer_succeeds_witness :
  exists d k,
    predict_mood reflib happy_models (fun _ => 0) plain_request = Ok200 d /\
    confidence d
    = combine MOOD_NAMES (blend [0.7; 0.1; 0.1; 0.1] [0.5; 0.2; 0.2; 0.1]) /\
    np_argmax (blend [0.7; 0.1; 0.1; 0.1] [0.5; 0.2; 0.2; 0.1]) = Ret k /\
    MOOD_NAMES !! k = Some (primary_mood d) /\
    MOOD_NAMES !! Z.to_nat 0 = Some (model1_prediction d) /\
    MOOD_NAMES !! Z.to_nat 0 = Some (model2_prediction d).
Proof.
  destruct (request_without_accelerometer_succeeds reflib happy_models (fun _ => 0)
              plain_request eq_refl eq_refl) as (f & Hf & _ & Hall).
  apply (Hall f f 0%Z 0%Z [0.7; 0.1; 0.1; 0.1] [0.5; 0.2; 0.2; 0.1]);
    try reflexivity; lia.
Defined.

(** ** Recommendations *)

Lemma mood_known_iff (m : string) :
  existsb (String.eqb m) MOOD_NAMES = true <-> In m MOOD_NAMES.
Proof.
  rewrite existsb_exists. split.
  - intros (x & Hx & He). apply String.eqb_eq in He. now subst.
  - intros H. exists m. split; [exact H | apply String.eqb_refl].
Qed.

Lemma recommend_known (songs_df : list song) (m : string) :
  In m MOOD_NAMES ->
  exists lo hi,
    mood_range m = Some (lo, hi) /\
    recommend_songs songs_df (Some m)
    = Recommendations m (filter (fun s => between lo hi (song_index s)) songs_df).
Proof.
  intros Hin. simpl in Hin.
  destruct Hin as [<-|[<-|[<-|[<-|[]]]]]; eexists _, _; split; reflexivity.
Qed.

Lemma recommend_songs_validation_aux (songs_df : list song) (mood : option string) :
  (recommend_songs songs_df mood = InvalidMood <->
   (mood = None \/ exists m, mood = Some m /\ ~ In m MOOD_NAMES)) /\
  ((exists m recs, recommend_songs songs_df mood = Recommendations m recs) <->
   (exists m, mood = Some m /\ In m MOOD_NAMES)) /\
  recommend_songs songs_df mood <> NotInList /\
  (forall k, recommend_songs songs_df mood <> KeyError k).
Proof.
  destruct mood as [m|].
  - destruct (existsb (String.eqb m) MOOD_NAMES) eqn:E.
    + assert (Hin : In m MOOD_NAMES) by now apply mood_known_iff.
      destruct (recommend_known songs_df m Hin) as (lo & hi & _ & ->).
      split; [|split; [|split]]; try discriminate.
      * split; [discriminate|].
        intros [H|(m' & [= <-] & Hn)]; [discriminate | contradiction].
      * split; eauto.
    + assert (Hnin : ~ In m MOOD_NAMES).
      { intros H. apply mood_known_iff in H. congruence. }
      assert (Hr : recommend_songs songs_df (Some m) = InvalidMood).
      { unfold recommend_songs. rewrite E. now rewrite orb_true_r. }
      rewrite Hr. split; [|split; [|split]]; try discriminate.
      * split; eauto.
      * split; [intros (? & ? & ?); discriminate|].
        intros (m' & [= <-] & H). contradiction.
  - cbn [recommend_songs]. split; [|split; [|split]]; try discriminate.
    + split; auto.
    + split; [intros (? & ? & ?); discriminate | intros (? & ? & _); discriminate].
Qed.

(** X15.  [recommend_songs] answers the recommendation list exactly
    for the four names of [MOOD_NAMES]; a missing mood, the empty string
    and every other string are answered with the invalid-mood error
    (status 400); neither [list.index] nor the lookup in [song_ranges]
    ever fails. *)
Theorem recommend_songs_validation (songs_df : list song) (mood : option string) :
  (recommend_songs songs_df mood = InvalidMood <->
   (mood = None \/ exists m, mood = Some m /\ ~ In m MOOD_NAMES)) /\
  ((exists m recs, recommend_songs songs_df mood = Recommendations m recs) <->
   (exists m, mood = Some m /\ In m MOOD_NAMES)) /\
  recommend_songs songs_df mood <> NotInList /\
  (forall k, recommend_songs songs_df mood <> KeyError k).
Proof. exact (recommend_songs_validation_aux songs_df mood). Qed.

Lemma mood_range_bounds (m : string) (lo hi : Z) :
  mood_range m = Some (lo, hi) ->
  In m MOOD_NAMES /\ (1 <= lo)%Z /\ (hi = lo + 19)%Z /\ (hi <= 80)%Z.
Proof.
  unfold mood_range. intros H.
  destruct (list_index m MOOD_NAMES) as [i|] eqn:Ei; [|discriminate].
  cbn [mbind option_bind] in H.
  assert (Hin : In m MOOD_NAMES).
  { simpl in Ei.
    repeat match type of Ei with
           | context [String.eqb m ?x] =>
               destruct (String.eqb_spec m x) as [->|?]; [simpl; tauto|]
           end.
    discriminate. }
  split; [exact Hin|]. simpl in Hin.
  destruct Hin as [<-|[<-|[<-|[<-|[]]]]]; vm_compute in Ei; injection Ei as <-;
    vm_compute in H; injection H as <- <-; lia.
Qed.

(** X16.  The rows recommended for a mood are exactly the catalog
    rows whose index lies in the range of that mood; no row is
    recommended for two different moods, a row with an index outside
    1..80 is recommended for none, and a row with an index in 1..80 is
    recommended for exactly one of the four moods. *)
Theorem recommendations_partition_catalog (songs_df : list song) :
  (forall m recs s,
     recommend_songs songs_df (Some m) = Recommendations m recs ->
     (In s recs <->
      In s songs_df /\
      exists lo hi, mood_range m = Some (lo, hi) /\ (lo <= song_index s <= hi)%Z)) /\
  (forall m1 m2 recs1 recs2 s,
     recommend_songs songs_df (Some m1) = Recommendations m1 recs1 ->
     recommend_songs songs_df (Some m2) = Recommendations m2 recs2 ->
     In s recs1 -> In s recs2 -> m1 = m2) /\
  (forall m recs s,
     recommend_songs songs_df (Some m) = Recommendations m recs ->
     In s recs -> (1 <= song_index s <= 80)%Z) /\
  (forall s, In s songs_df -> (1 <= song_index s <= 80)%Z ->
     exists m recs,
       recommend_songs songs_df (Some m) = Recommendations m recs /\ In s recs).
Proof.
  assert (Hchar : forall m recs s,
     recommend_songs songs_df (Some m) = Recommendations m recs ->
     (In s recs <->
      In s songs_df /\
      exists lo hi, mood_range m = Some (lo, hi) /\ (lo <= song_index s <= hi)%Z)).
  { intros m recs s Hr.
    assert (Hin : In m MOOD_NAMES).
    { destruct (recommend_songs_validation_aux songs_df (Some m)) as (_ & Hv & _).
      destruct Hv as [Hv _]. destruct Hv as (m' & [= <-] & H); eauto. }
    destruct (recommend_known songs_df m Hin) as (lo & hi & Hrange & Hrec).
    rewrite Hrec in Hr. injection Hr as <-.
    rewrite <- list_elem_of_In, list_elem_of_filter, list_elem_of_In.
    unfold between. rewrite Is_true_true, andb_true_iff, !Z.leb_le.
    split.
    - intros [Hb Hs]. split; [exact Hs|]. exists lo, hi. auto.
    - intros [Hs (lo' & hi' & Hr' & Hb)]. rewrite Hrange in Hr'.
      injection Hr' as <- <-. auto. }
  split; [exact Hchar|]. split; [|split].
  - intros m1 m2 recs1 recs2 s H1 H2 I1 I2.
    apply (Hchar _ _ s H1) in I1. apply (Hchar _ _ s H2) in I2.
    destruct I1 as [_ (lo1 & hi1 & R1 & B1)], I2 as [_ (lo2 & hi2 & R2 & B2)].
    pose proof (mood_range_bounds _ _ _ R1) as (In1 & _).
    pose proof (mood_range_bounds _ _ _ R2) as (In2 & _).
    simpl in In1, In2.
    destruct In1 as [<-|[<-|[<-|[<-|[]]]]]; destruct In2 as [<-|[<-|[<-|[<-|[]]]]];
      try reflexivity;
      vm_compute in R1; vm_compute in R2;
      injection R1 as <- <-; injection R2 as <- <-; lia.
  - intros m recs s Hr Hin. apply (Hchar _ _ s Hr) in Hin.
    destruct Hin as [_ (lo & hi & R & B)].
    pose proof (mood_range_bounds _ _ _ R). lia.
  - intros s Hs Hb.
    assert (Hm : exists m, In m MOOD_NAMES /\
                 exists lo hi, mood_range m = Some (lo, hi) /\
                               (lo <= song_index s <= hi)%Z).
    { destruct (Z_le_gt_dec (song_index s) 20);
        [exists "Happy"%string; split; [simpl; tauto|];
         exists 1%Z, 20%Z; split; [reflexivity|lia]|].
      destruct (Z_le_gt_dec (song_index s) 40);
        [exists "Sad"%string; split; [simpl; tauto|];
         exists 21%Z, 40%Z; split; [reflexivity|lia]|].
      destruct (Z_le_gt_dec (song_index s) 60);
        [exists "Relaxed"%string; split; [simpl; tauto|];
         exists 41%Z, 60%Z; split; [reflexivity|lia]|].
      exists "Angry"%string; split; [simpl; tauto|].
      exists 61%Z, 80%Z; split; [reflexivity|lia]. }
    destruct Hm as (m & Hin & lo & hi & R & B).
    destruct (recommend_known songs_df m Hin) as (lo' & hi' & _ & Hrec).
    exists m. eexists. split; [exact Hrec|].
    apply (Hchar _ _ s Hrec). split; [exact Hs|]. eauto.
Qed.

Lemma recommendations_partition_catalog_witness :
  exists m recs,
    recommend_songs
      [ {| song_index := 20; title := "a"; artists := "x" |};
        {| song_index := 61; title := "b"; artists := "y" |} ] (Some m)
    = Recommendations m recs /\
    In {| song_index := 61; title := "b"; artists := "y" |} recs.
Proof.
  apply (proj2 (proj2 (proj2 (recommendations_partition_catalog
           [ {| song_index := 20; title := "a"; artists := "x" |};
             {| song_index := 61; title := "b"; artists := "y" |} ])))).
  - simpl. auto.
  - simpl. lia.
Defined.

(** ** Song details *)




(** *** The file name and the audio path *)

Lemma chars_append (a b : string) :
  String.list_ascii_of_string (String.append a b)
  = String.list_ascii_of_string a ++ String.list_ascii_of_string b.
Proof.
  induction a as [|c a IH]; [reflexivity|]. simpl. now rewrite IH.
Qed.

Lemma zeros_chars (n : nat) (c : ascii) :
  In c (String.list_ascii_of_string (zeros n)) -> c = "0"%char.
Proof.
  induction n as [|n IH]; simpl; [intros []|]. intros [<-|H]; auto.
Qed.

Lemma uint_digits (d : Decimal.uint) (c : ascii) :
  In c (String.list_ascii_of_string (NilEmpty.string_of_uint d)) -> is_digit c.
Proof.
  unfold is_digit.
  induction d as [|d IH|d IH|d IH|d IH|d IH|d IH|d IH|d IH|d IH|d IH];
    simpl; [intros [] | ..]; (intros [<-|H]; [tauto | specialize (IH H); simpl in IH; tauto]).
Qed.

Lemma py_str_digits (n : nat) (c : ascii) :
  In c (String.list_ascii_of_string (py_str n)) -> is_digit c.
Proof.
  unfold py_str, NilZero.string_of_uint.
  destruct (Nat.to_uint n) eqn:E; try apply (uint_digits _ c).
  simpl. unfold is_digit. simpl. tauto.
Qed.

Lemma py_str_nonempty (n : nat) : py_str n <> EmptyString.
Proof.
  unfold py_str, NilZero.string_of_uint.
  destruct (Nat.to_uint n); discriminate.
Qed.

Lemma sanitize_chars (isalnum : ascii -> bool) (s : string) (c : ascii) :
  In c (String.list_ascii_of_string (sanitize isalnum s)) ->
  isalnum c = true \/ c = "_"%char.
Proof.
  induction s as [|a s IH]; simpl; [intros []|].
  intros [<-|H]; [|auto]. destruct (isalnum a) eqn:E; auto.
Qed.

Lemma sanitize_length (isalnum : ascii -> bool) (s : string) :
  String.length (sanitize isalnum s) = String.length s.
Proof. induction s as [|a s IH]; simpl; congruence. Qed.

Lemma zfill_chars (n : nat) (c : ascii) :
  In c (String.list_ascii_of_string (zfill 2 (py_str n))) -> is_digit c.
Proof.
  unfold zfill. rewrite chars_append, in_app_iff.
  intros [H|H]; [|exact (py_str_digits n c H)].
  apply zeros_chars in H. subst. unfold is_digit. simpl. tauto.
Qed.

Lemma zfill_head (n : nat) :
  exists c rest, zfill 2 (py_str n) = String c rest /\ is_digit c.
Proof.
  pose proof (zfill_chars n) as Hd. pose proof (py_str_nonempty n) as Hne.
  unfold zfill in *.
  destruct (zeros (2 - String.length (py_str n))) as [|c z] eqn:Ez.
  - simpl in *. destruct (py_str n) as [|c rest]; [congruence|].
    exists c, rest. split; [reflexivity|]. apply Hd. simpl. auto.
  - simpl in *. eexists _, _. split; [reflexivity|]. apply Hd. auto.
Qed.

Lemma filename_chars (isalnum : ascii -> bool) (song_id : nat) (details : song)
  (c : ascii) :
  In c (String.list_ascii_of_string (song_filename isalnum song_id details)) ->
  is_digit c \/ c = "_"%char \/ isalnum c = true.
Proof.
  unfold song_filename. rewrite chars_append, in_app_iff.
  intros [H|H]; [left; exact (zfill_chars _ _ H)|].
  simpl in H. destruct H as [<-|H]; [auto|].
  rewrite chars_append, in_app_iff in H.
  destruct H as [H|H]; [apply sanitize_chars in H; tauto|].
  simpl in H. destruct H as [<-|H]; [auto|].
  apply sanitize_chars in H. tauto.
Qed.

(** X18.  The file name built for a song consists of decimal digits,
    underscores and characters that [isalnum] accepts, and of nothing
    else; as [isalnum] rejects the slash and the dot, neither occurs in
    it, whatever the title and the artists of the catalog row. *)
Theorem song_filename_is_safe
  (isalnum : ascii -> bool) (song_id : nat) (details : song) :
  isalnum "/"%char = false -> isalnum "."%char = false ->
  (forall c, In c (String.list_ascii_of_string (song_filename isalnum song_id details)) ->
             is_digit c \/ c = "_"%char \/ isalnum c = true) /\
  ~ In "/"%char (String.list_ascii_of_string (song_filename isalnum song_id details)) /\
  ~ In "."%char (String.list_ascii_of_string (song_filename isalnum song_id details)).
Proof.
  intros Hs Hd. split; [apply filename_chars|]. split; intros H;
    apply filename_chars in H; unfold is_digit in H; simpl in H;
    destruct H as [H|[H|H]]; try congruence;
    repeat (destruct H as [H|H]; [discriminate|]); destruct H.
Qed.

Lemma song_filename_is_safe_witness :
  ~ In "/"%char
      (String.list_ascii_of_string
         (song_filename ascii_isalnum 7
            {| song_index := 7; title := "../../etc/passwd"; artists := "a/b, c" |})).
Proof.
  apply (song_filename_is_safe ascii_isalnum 7
           {| song_index := 7; title := "../../etc/passwd"; artists := "a/b, c" |});
    reflexivity.
Defined.

Lemma ends_with_slash_append (a b : string) :
  b <> EmptyString ->
  ends_with_slash (String.append a b) = ends_with_slash b.
Proof.
  intros Hb. induction a as [|c a IH]; [reflexivity|].
  change (String.append (String c a) b) with (String c (String.append a b)).
  destruct (String.append a b) as [|c' s'] eqn:E.
  - exfalso. destruct a as [|c'' a'].
    + exact (Hb E).
    + change (String.append (String c'' a') b)
        with (String c'' (String.append a' b)) in E. discriminate.
  - exact IH.
Qed.

Lemma path_join_cases (path b : string) :
  starts_with_slash b = false ->
  path_join path b = String.append path b \/
  path_join path b = String.append path (String "/"%char b).
Proof.
  intros Hs. unfold path_join. rewrite Hs.
  destruct (String.eqb path "" || ends_with_slash path); auto.
Qed.

Lemma append_nonempty (a b : string) :
  b <> EmptyString -> String.append a b <> EmptyString.
Proof.
  intros Hb. destruct a as [|c a]; [exact Hb|].
  change (String.append (String c a) b) with (String c (String.append a b)).
  discriminate.
Qed.

Lemma songs_dir_plain (PARENT_DIR : string) :
  SONGS_DIR PARENT_DIR <> EmptyString /\ ends_with_slash (SONGS_DIR PARENT_DIR) = false.
Proof.
  unfold SONGS_DIR.
  destruct (path_join_cases (path_join PARENT_DIR "songs") "samples" eq_refl)
    as [-> | ->]; (split;
      [ apply append_nonempty; discriminate
      | now rewrite ends_with_slash_append by discriminate ]).
Qed.

Lemma path_join_plain (path b : string) :
  path <> EmptyString -> ends_with_slash path = false ->
  starts_with_slash b = false ->
  path_join path b = String.append path (String "/"%char b).
Proof.
  intros Hne He Hs. unfold path_join. rewrite Hs, He.
  destruct (String.eqb_spec path ""); [congruence | reflexivity].
Qed.

(** X19.  In an answer of [song_details] the audio path is present
    exactly when [has_audio] is true; it then names an existing file,
    and it is the samples directory, a slash, the file name of the first
    matching row and the suffix ".mp3". *)
Theorem song_details_audio_path
  (isalnum : ascii -> bool) (PARENT_DIR : string) (path_exists : string -> bool)
  (songs_df : list song) (song_id : nat)
  (id : Z) (t a : string) (has_audio : bool) (audio_path : option string) :
  song_details isalnum PARENT_DIR path_exists songs_df song_id
  = SongDetails id t a has_audio audio_path ->
  let p := String.append (SONGS_DIR PARENT_DIR)
             (String "/"%char
                (String.append
                   (song_filename isalnum song_id
                      {| song_index := id; title := t; artists := a |})
                   ".mp3")) in
  has_audio = path_exists p /\
  audio_path = (if has_audio then Some p else None).
Proof.
  unfold song_details.
  destruct (List.filter _ songs_df) as [|details rest]; [discriminate|].
  destruct (songs_dir_plain PARENT_DIR) as [Hne Hes].
  destruct (zfill_head song_id) as (c & r & Hz & Hc).
  rewrite path_join_plain; [| exact Hne | exact Hes |].
  - intros [= <- <- <- <- <-]. destruct details. split; reflexivity.
  - unfold song_filename. rewrite Hz. cbn [String.append starts_with_slash].
    unfold is_digit in Hc. simpl in Hc.
    repeat (destruct Hc as [<-|Hc]; [reflexivity|]). destruct Hc.
Qed.

Lemma song_details_audio_path_witness :
  true = (fun _ : string => true)
           (String.append (SONGS_DIR "/srv/ml")
              (String "/"%char
                 (String.append
                    (song_filename ascii_isalnum 7
                       {| song_index := 7; title := "Let It Be";
                          artists := "The Beatles, Someone" |})
                    ".mp3"))) /\
  Some "/srv/ml/songs/samples/07_Let_It_Be_The_Beatles.mp3"%string
  = Some (String.append (SONGS_DIR "/srv/ml")
            (String "/"%char
               (String.append
                  (song_filename ascii_isalnum 7
                     {| song_index := 7; title := "Let It Be";
                        artists := "The Beatles, Someone" |})
                  ".mp3"))).
Proof.
  exact (song_details_audio_path ascii_isalnum "/srv/ml" (fun _ => true)
           [ {| song_index := 7; title := "Let It Be";
                artists := "The Beatles, Someone" |} ] 7
           7%Z "Let It Be" "The Beatles, Someone" true
           (Some "/srv/ml/songs/samples/07_Let_It_Be_The_Beatles.mp3"%string)
           eq_refl).
Defined.

(** ** A catalog that could not be read *)

(** X20.  When the catalog file cannot be read the server runs on an
    empty catalog: each of the four moods is answered with an empty
    recommendation list, every other mood with the invalid-mood error,
    and [song_details] answers not-found for every song id. *)
Theorem unreadable_catalog_is_empty
  (isalnum : ascii -> bool) (PARENT_DIR : string) (path_exists : string -> bool) :
  (forall m, In m MOOD_NAMES ->
     recommend_songs (load_songs None) (Some m) = Recommendations m []) /\
  (forall m, ~ In m MOOD_NAMES ->
     recommend_songs (load_songs None) (Some m) = InvalidMood) /\
  (forall song_id,
     song_details isalnum PARENT_DIR path_exists (load_songs None) song_id
     = SongNotFound).
Proof.
  split; [|split].
  - intros m Hin. destruct (recommend_known (load_songs None) m Hin)
      as (lo & hi & _ & ->). reflexivity.
  - intros m Hn.
    destruct (recommend_songs_validation_aux (load_songs None) (Some m)) as [Hv _].
    apply Hv. right. eauto.
  - reflexivity.
Qed.

Lemma unreadable_catalog_is_empty_witness :
  recommend_songs (load_songs None) (Some "Sad"%string) = Recommendations "Sad" [].
Proof.
  apply (proj1 (unreadable_catalog_is_empty ascii_isalnum "/srv/ml" (fun _ => false))).
  simpl. auto.
Defined.
